(** * flowvision.transforms.functional: a shallow embedding

    The module [flowvision/transforms/functional.py] is the dispatch layer of
    the transform engine.  Its functions are embedded here one by one, under
    their own names, together with the backends they call.

    - Python integers are [Z]; [//] and [%] are [Z.div] and [Z.modulo].
    - Floats are idealised: rationals where the module only adds, multiplies
      and compares ([round], the default sigma, [normalize]), real numbers
      where it calls [math.cos], [math.sin] and [math.tan].
    - A raise is a [Raise] in the [result] of the call; warnings, backend
      calls and writes to tensors are threaded as state.
    - Arguments whose type Python leaves open ([interpolation], [size],
      [kernel_size], [sigma], [angle], [center]) are sums over the cases the
      module tells apart with [isinstance]. *)

From Stdlib Require Import ZArith QArith Qround Qabs Reals Lia Lqa Lra List String.
From stdpp Require Import base option list strings gmap.

Close Scope Q_scope.
Close Scope R_scope.
Open Scope Z_scope.

(** ** Python exceptions and the error monad *)

(** The exception classes raised in the module.  The message is the format
    string of the source, before [str.format] fills it in. *)
Inductive exn : Type :=
| TypeError (msg : string)
| ValueError (msg : string)
| KeyError (key : Z)
| IndexError (msg : string)
| ZeroDivisionError
| RuntimeError (msg : string)
| NotImplementedError (msg : string).

(** A call either returns a value or raises. *)
Inductive result (A : Type) : Type :=
| Ok (a : A)
| Raise (e : exn).
Arguments Ok {A} a.
Arguments Raise {A} e.

#[global] Instance result_ret : MRet result := @Ok.
#[global] Instance result_bind : MBind result := fun A B f m =>
  match m with
  | Ok a => f a
  | Raise e => Raise e
  end.

Definition is_ok {A} (r : result A) : bool :=
  match r with Ok _ => true | Raise _ => false end.

(** Tuple unpacking [a, b = xs]. *)
Definition unpack2 {A} (xs : list A) : result (A * A) :=
  match xs with
  | [a; b] => Ok (a, b)
  | _ => Raise (ValueError "wrong number of values to unpack")
  end.

(** ** Numbers *)

(** Python 3 [round(x)] with one argument: the nearest integer, a tie going to
    the even neighbour.  Finite floats are rationals; the divisions by [2.0]
    of the module are exact on them below 2^53. *)
Definition py_round (x : Q) : Z :=
  let f := Qfloor x in
  match Qcompare (x - inject_Z f) (1 # 2) with
  | Lt => f
  | Gt => f + 1
  | Eq => if Z.even f then f else f + 1
  end.

(** ** Images *)

(** The two representations an image argument can have. *)
Inductive variant : Type := PIL | Tensor.

#[global] Instance variant_eq_dec : EqDecision variant.
Proof. solve_decision. Defined.

(** Modelled from the spec: the image abstraction "exposes size (width,
    height), channel count, per-pixel read".  An [Image] is one channel plane,
    row-major, with its size carried along as a tensor shape [..., H, W] or a
    PIL [size] does; the geometric backends treat every plane alike. *)
Record Image : Type := mkImage {
  repr : variant;
  width : Z;
  height : Z;
  rows : list (list Z)
}.

(** The rows and columns are as many as the size says. *)
Definition is_image (img : Image) : bool :=
  (0 <=? width img) && (0 <=? height img)
  && (Z.of_nat (length (rows img)) =? height img)
  && forallb (fun r => Z.of_nat (length r) =? width img) (rows img).

(** Per-pixel read; [None] outside the image. *)
Definition pixel (img : Image) (y x : Z) : option Z :=
  if (0 <=? y) && (0 <=? x)
  then r ← rows img !! Z.to_nat y; r !! Z.to_nat x
  else None.

(** A [w] by [h] image of the given representation, pixel by pixel. *)
Definition build (k : variant) (w h : Z) (f : Z -> Z -> Z) : Image :=
  mkImage k (Z.max 0 w) (Z.max 0 h)
    ((fun y => (fun x => f y x) <$> seqZ 0 w) <$> seqZ 0 h).

(** ** Geometric backends

    [functional_pil] and [functional_tensor] are imported by the module as
    [F_pil] and [F_t].  The spec gives one boundary-policy contract for both,
    so both are given by the same functions on planes. *)

(** Modelled from the spec: [_get_image_size] of the backends; the module's
    own docstring reads "Returns image size as [w, h]". *)
Definition image_size (img : Image) : list Z := [width img; height img].

(** Modelled from the spec: the padding specification is "either one value
    (applies to all four sides), two values (left/right, top/bottom), or four
    values (left, top, right, bottom)"; other lengths are a validation
    error. *)
Definition parse_padding (padding : list Z) : result (Z * Z * Z * Z) :=
  match padding with
  | [p] => Ok (p, p, p, p)
  | [lr; tb] => Ok (lr, tb, lr, tb)
  | [l; t; r; b] => Ok (l, t, r, b)
  | _ => Raise (ValueError "Padding must be an int or a 1, 2, or 4 element tuple")
  end.

(** Modelled from the spec: a border of [l], [t], [r], [b] pixels of value
    [fill] around the image. *)
Definition pad_ltrb (img : Image) (l t r b : Z) (fill : Z) : Image :=
  build (repr img) (width img + l + r) (height img + t + b)
    (fun y x => default fill (pixel img (y - t) (x - l))).

(** Modelled from the spec: [pad] of the backends in its default mode
    [padding_mode="constant"], the only mode the module itself asks for:
    "Constant fills with [fill]". *)
Definition pad_constant (img : Image) (padding : list Z) (fill : Z) : result Image :=
  '(l, t, r, b) ← parse_padding padding;
  mret (pad_ltrb img l t r b fill).

(** Modelled from the spec: the sub-region [top : top + h, left : left + w]
    of an image that contains it. *)
Definition slice (img : Image) (top left h w : Z) : Image :=
  build (repr img) w h (fun y x => default 0 (pixel img (top + y) (left + x))).

(** Modelled from the spec: [crop] of the backends "returns the sub-region; if
    the requested box extends beyond the source bounds on any side, the
    missing area is synthesized as if the source had first been padded with a
    zero-valued border sufficient to cover the overrun, then cropped", as a
    composition of pad and crop. *)
Definition crop_box (img : Image) (top left h w : Z) : Image :=
  let right := left + w in
  let bottom := top + h in
  if (left <? 0) || (top <? 0) || (right >? width img) || (bottom >? height img)
  then
    let pl := Z.max (- left) 0 in
    let pt := Z.max (- top) 0 in
    let pr := Z.max (right - width img) 0 in
    let pb := Z.max (bottom - height img) 0 in
    slice (pad_ltrb img pl pt pr pb 0) (top + pt) (left + pl) h w
  else slice img top left h w.

(** Modelled from the spec: [hflip] and [vflip] of the backends "reverse the
    width (resp. height) axis"; [hflip] reverses every row. *)
Definition flip_width (img : Image) : Image :=
  mkImage (repr img) (width img) (height img) (reverse <$> rows img).

(** Modelled from the spec: [vflip], the height axis reversed. *)
Definition flip_height (img : Image) : Image :=
  mkImage (repr img) (width img) (height img) (reverse (rows img)).

Module F_pil.
Definition _get_image_size := image_size.
Definition pad := pad_constant.
Definition crop := crop_box.
Definition hflip := flip_width.
Definition vflip := flip_height.
End F_pil.

Module F_t.
Definition _get_image_size := image_size.
Definition pad := pad_constant.
Definition crop := crop_box.
Definition hflip := flip_width.
Definition vflip := flip_height.
End F_t.

(** ** The geometric primitives of the module *)

(** [isinstance(img, flow.Tensor)] *)
Definition is_tensor (img : Image) : bool :=
  match repr img with Tensor => true | PIL => false end.

Definition _get_image_size (img : Image) : list Z :=
  if is_tensor img then F_t._get_image_size img else F_pil._get_image_size img.

(** [fill] defaults to 0 and [padding_mode] to constant. *)
Definition pad (img : Image) (padding : list Z) (fill : Z) : result Image :=
  if negb (is_tensor img) then F_pil.pad img padding fill
  else F_t.pad img padding fill.

Definition crop (img : Image) (top left height width : Z) : Image :=
  if negb (is_tensor img) then F_pil.crop img top left height width
  else F_t.crop img top left height width.

Definition hflip (img : Image) : Image :=
  if negb (is_tensor img) then F_pil.hflip img else F_t.hflip img.

Definition vflip (img : Image) : Image :=
  if negb (is_tensor img) then F_pil.vflip img else F_t.vflip img.

(** A size argument: a number, or a sequence of numbers. *)
Inductive size_arg : Type :=
| SizeNum (n : Z)
| SizeSeq (l : list Z).

(** The first lines of [center_crop], [five_crop] and [ten_crop]: a number
    and a one-element sequence stand for a square. *)
Definition square_size (size : size_arg) : list Z :=
  match size with
  | SizeNum n => [n; n]
  | SizeSeq [x] => [x; x]
  | SizeSeq l => l
  end.

(** Lines 586-588 of the module. *)
Definition crop_centered (img : Image)
    (image_width image_height crop_height crop_width : Z) : Image :=
  let crop_top := py_round (inject_Z (image_height - crop_height) / 2) in
  let crop_left := py_round (inject_Z (image_width - crop_width) / 2) in
  crop img crop_top crop_left crop_height crop_width.

Definition center_crop (img : Image) (output_size : size_arg) : result Image :=
  let output_size := square_size output_size in
  '(image_width, image_height) ← unpack2 (_get_image_size img);
  '(crop_height, crop_width) ← unpack2 output_size;
  if (crop_width >? image_width) || (crop_height >? image_height) then
    let padding_ltrb :=
      [ if crop_width >? image_width then (crop_width - image_width) `div` 2 else 0;
        if crop_height >? image_height then (crop_height - image_height) `div` 2 else 0;
        if crop_width >? image_width then (crop_width - image_width + 1) `div` 2 else 0;
        if crop_height >? image_height then (crop_height - image_height + 1) `div` 2 else 0 ] in
    img ← pad img padding_ltrb 0;
    '(image_width, image_height) ← unpack2 (_get_image_size img);
    if (crop_width =? image_width) && (crop_height =? image_height) then mret img
    else mret (crop_centered img image_width image_height crop_height crop_width)
  else mret (crop_centered img image_width image_height crop_height crop_width).

Definition five_crop (img : Image) (size : size_arg) : result (list Image) :=
  let size := square_size size in
  if negb (length size =? 2)%nat then
    Raise (ValueError "Please provide only two dimensions (h, w) for size.")
  else
    '(image_width, image_height) ← unpack2 (_get_image_size img);
    '(crop_height, crop_width) ← unpack2 size;
    if (crop_width >? image_width) || (crop_height >? image_height) then
      Raise (ValueError "Requested crop size {} is bigger than input size {}")
    else
      let tl := crop img 0 0 crop_height crop_width in
      let tr := crop img 0 (image_width - crop_width) crop_height crop_width in
      let bl := crop img (image_height - crop_height) 0 crop_height crop_width in
      let br := crop img (image_height - crop_height) (image_width - crop_width)
                  crop_height crop_width in
      center ← center_crop img (SizeSeq [crop_height; crop_width]);
      mret [tl; tr; bl; br; center].

Definition ten_crop (img : Image) (size : size_arg) (vertical_flip : bool)
    : result (list Image) :=
  let size := square_size size in
  if negb (length size =? 2)%nat then
    Raise (ValueError "Please provide only two dimensions (h, w) for size.")
  else
    first_five ← five_crop img (SizeSeq size);
    let img := if vertical_flip then vflip img else hflip img in
    second_five ← five_crop img (SizeSeq size);
    mret (first_five ++ second_five).

(** ** Effects: warnings, backend calls, the tensor store *)

(** A computation that may raise and that threads a state [S]: the list of
    warnings issued so far, the list of backend calls made so far, or the
    store of tensors. *)
Definition Eff (S A : Type) : Type := S -> result A * S.

#[global] Instance Eff_ret {S} : MRet (Eff S) := fun A a s => (Ok a, s).
#[global] Instance Eff_bind {S} : MBind (Eff S) := fun A B f m s =>
  match m s with
  | (Ok a, s') => f a s'
  | (Raise e, s') => (Raise e, s')
  end.

Definition raise {S A} (e : exn) : Eff S A := fun s => (Raise e, s).

Definition lift {S A} (r : result A) : Eff S A := fun s => (r, s).

(** [warnings.warn(msg)] *)
Definition warn (msg : string) : Eff (list string) unit :=
  fun ws => (Ok tt, ws ++ [msg]).

(** ** Interpolation modes *)

Inductive InterpolationMode : Type :=
| NEAREST | BILINEAR | BICUBIC | BOX | HAMMING | LANCZOS.

#[global] Instance InterpolationMode_eq_dec : EqDecision InterpolationMode.
Proof. solve_decision. Defined.

(** The [.value] of a member of the enumeration. *)
Definition value (m : InterpolationMode) : string :=
  match m with
  | NEAREST => "nearest"
  | BILINEAR => "bilinear"
  | BICUBIC => "bicubic"
  | BOX => "box"
  | HAMMING => "hamming"
  | LANCZOS => "lanczos"
  end.

(** Indexing the dictionary with a key it lacks raises [KeyError]. *)
Definition _interpolation_modes_from_int (i : Z) : result InterpolationMode :=
  match i with
  | 0 => Ok NEAREST
  | 2 => Ok BILINEAR
  | 3 => Ok BICUBIC
  | 4 => Ok BOX
  | 5 => Ok HAMMING
  | 1 => Ok LANCZOS
  | _ => Raise (KeyError i)
  end.

Definition pil_modes_mapping (m : InterpolationMode) : Z :=
  match m with
  | NEAREST => 0
  | BILINEAR => 2
  | BICUBIC => 3
  | BOX => 4
  | HAMMING => 5
  | LANCZOS => 1
  end.

(** What a caller can pass as [interpolation]: an [int], a member of
    [InterpolationMode], or anything else. *)
Inductive interpolation_arg : Type :=
| AsInt (i : Z)
| AsMode (m : InterpolationMode)
| AsOther.

(** ** Backends taken as parameters

    The resampling, rotation and convolution kernels of the two backends, the
    conversions between the representations and the arithmetic of oneflow
    tensors are primitives the module calls. *)

(** A Python number, as an element of a [kernel_size]: the module checks the
    type of the container and never that of its elements, so a [float]
    passes where the annotation says [int]. *)
Inductive py_number : Type :=
| PyInt (n : Z)
| PyFloat (x : Q).

(** The value of a number in float arithmetic. *)
Definition to_float (k : py_number) : Q :=
  match k with
  | PyInt n => inject_Z n
  | PyFloat x => x
  end.

(** A oneflow tensor as [normalize] sees it. *)
Inductive dtype : Type := float32 | float64 | uint8 | int32 | int64.

#[global] Instance dtype_eq_dec : EqDecision dtype.
Proof. solve_decision. Defined.

Record flow_tensor : Type := mkTensor {
  t_dtype : dtype;
  t_shape : list Z;
  t_data : list Q
}.

Class Backends : Type := {
  (** [F_pil.resize(img, size=, interpolation=)], with a PIL filter code *)
  F_pil_resize : Image -> size_arg -> Z -> result Image;
  (** [F_t.resize(img, size=, interpolation=)], with the mode's name *)
  F_t_resize : Image -> size_arg -> string -> result Image;
  (** [F_pil.rotate(img, angle=, interpolation=, expand=, center=, fill=)] *)
  F_pil_rotate :
    Image -> R -> Z -> bool -> option (list Z) -> option (list Q) -> result Image;
  (** [F_t.gaussian_blur(t_img, kernel_size, sigma)] *)
  F_t_gaussian_blur : Image -> list py_number -> list Q -> result Image;
  (** [to_tensor] and [to_pil_image], written on numpy and oneflow arrays *)
  to_tensor : Image -> result Image;
  to_pil_image : Image -> result Image;
  (** the numpy arithmetic of the PIL branch of [normalize] *)
  np_normalize : Image -> list Q -> list Q -> result (list Q);
  (** the values [t.sub_(mean)] and [t.div_(std)] leave in [t], with [mean]
      and [std] broadcast over the channel axis *)
  tensor_sub : flow_tensor -> list Q -> result flow_tensor;
  tensor_div : flow_tensor -> list Q -> result flow_tensor
}.

(** ** resize *)

Definition resize `{Backends} (img : Image) (size : size_arg)
    (interpolation : interpolation_arg) : Eff (list string) Image :=
  (* Backward compatibility with integer value *)
  interpolation ←
    match interpolation with
    | AsInt i =>
        _ ← warn ("Argument interpolation should be of type InterpolationMode instead of int. "
                  +:+ "Please, use InterpolationMode enum.");
        m ← lift (_interpolation_modes_from_int i);
        mret (AsMode m)
    | _ => mret interpolation
    end;
  match interpolation with
  | AsMode interpolation =>
      if negb (is_tensor img) then
        let pil_interpolation := pil_modes_mapping interpolation in
        lift (F_pil_resize img size pil_interpolation)
      else lift (F_t_resize img size (value interpolation))
  | _ => raise (TypeError "Argument interpolation should be a InterpolationMode")
  end.

(** ** The affine matrix builder

    The module computes in binary floating point; the builder is embedded on
    the real numbers, where [math.cos], [math.sin] and [math.tan] are the
    functions they approximate. *)

Definition radians (x : R) : R := (x * (PI / 180))%R.

(** Python's [/] raises on a zero divisor. *)
Definition py_div (x y : R) : result R :=
  if Req_EM_T y 0 then Raise ZeroDivisionError else Ok (x / y)%R.

(** [xs[i]] and [xs[i] = v] for a list and an index in range. *)
Definition getitem {A} (xs : list A) (i : nat) : result A :=
  match xs !! i with
  | Some x => Ok x
  | None => Raise (IndexError "list index out of range")
  end.

Definition setitem {A} (xs : list A) (i : nat) (v : A) : result (list A) :=
  if (i <? length xs)%nat then Ok (<[i := v]> xs)
  else Raise (IndexError "list assignment index out of range").

Definition _get_inverse_affine_matrix
    (center : list R) (angle : R) (translate : list R) (scale : R)
    (shear : list R) : result (list R) :=
  let rot := radians angle in
  '(sx, sy) ← unpack2 (radians <$> shear);
  '(cx, cy) ← unpack2 center;
  '(tx, ty) ← unpack2 translate;
  (* RSS without scaling *)
  a ← py_div (cos (rot - sy)) (cos sy);
  b' ← py_div (- cos (rot - sy) * tan sx) (cos sy);
  let b := (b' - sin rot)%R in
  c ← py_div (sin (rot - sy)) (cos sy);
  d' ← py_div (- sin (rot - sy) * tan sx) (cos sy);
  let d := (d' + cos rot)%R in
  (* Inverted rotation matrix with scale and shear *)
  let matrix := [d; (- b)%R; 0%R; (- c)%R; a; 0%R] in
  matrix ← mapM (fun x => py_div x scale) matrix;
  (* Apply inverse of translation and of center translation *)
  m0 ← getitem matrix 0; m1 ← getitem matrix 1; m2 ← getitem matrix 2;
  matrix ← setitem matrix 2 (m2 + (m0 * (- cx - tx) + m1 * (- cy - ty)))%R;
  m3 ← getitem matrix 3; m4 ← getitem matrix 4; m5 ← getitem matrix 5;
  matrix ← setitem matrix 5 (m5 + (m3 * (- cx - tx) + m4 * (- cy - ty)))%R;
  (* Apply center translation *)
  m2 ← getitem matrix 2;
  matrix ← setitem matrix 2 (m2 + cx)%R;
  m5 ← getitem matrix 5;
  matrix ← setitem matrix 5 (m5 + cy)%R;
  mret matrix.

(** ** rotate *)

(** What a caller can pass as [angle] and as [center]. *)
Inductive angle_arg : Type :=
| AngleNum (x : R)
| AngleOther.

Inductive center_arg : Type :=
| CenterNone
| CenterSeq (c : list Z)
| CenterOther.

Definition rotate `{Backends} (img : Image) (angle : angle_arg)
    (interpolation : interpolation_arg) (expand : bool) (center : center_arg)
    (fill : option (list Q)) (resample : option Z) : Eff (list string) Image :=
  interpolation ←
    match resample with
    | Some resample =>
        _ ← warn ("Argument resample is deprecated and will be removed since v0.10.0. "
                  +:+ "Please, use interpolation instead");
        m ← lift (_interpolation_modes_from_int resample);
        mret (AsMode m)
    | None => mret interpolation
    end;
  (* Backward compatibility with integer value *)
  interpolation ←
    match interpolation with
    | AsInt i =>
        _ ← warn ("Argument interpolation should be of type InterpolationMode instead of int. "
                  +:+ "Please, use InterpolationMode enum.");
        m ← lift (_interpolation_modes_from_int i);
        mret (AsMode m)
    | _ => mret interpolation
    end;
  angle ←
    match angle with
    | AngleNum x => mret x
    | AngleOther => raise (TypeError "Argument angle should be int or float")
    end;
  center ←
    match center with
    | CenterNone => mret None
    | CenterSeq c => mret (Some c)
    | CenterOther => raise (TypeError "Argument center should be a sequence")
    end;
  interpolation ←
    match interpolation with
    | AsMode m => mret m
    | _ => raise (TypeError "Argument interpolation should be a InterpolationMode")
    end;
  if negb (is_tensor img) then
    let pil_interpolation := pil_modes_mapping interpolation in
    lift (F_pil_rotate img angle pil_interpolation expand center fill)
  else
    let center_f :=
      match center with
      | None => [0%R; 0%R]
      | Some center =>
          let img_size := _get_image_size img in
          (* Center values should be in pixel coordinates but translated such
             that (0, 0) corresponds to image center. *)
          zip_with (fun c s => (1 * (IZR c - IZR s * (1 / 2)))%R) center img_size
      end in
    (* due to current incoherence of rotation angle direction between affine
       and rotate implementations we need to set -angle. *)
    matrix ← lift (_get_inverse_affine_matrix center_f (- angle)%R [0%R; 0%R] 1%R
                     [0%R; 0%R]);
    (* the call of F_t.rotate that follows the raise is never reached *)
    raise (NotImplementedError "Tensor rotate is not implemented yet!").

(** ** gaussian_blur *)

(** What a caller can pass as [kernel_size] and as [sigma]. *)
Inductive kernel_arg : Type :=
| KernelInt (k : Z)
| KernelSeq (ks : list py_number)
| KernelOther.

Inductive sigma_arg : Type :=
| SigmaNone
| SigmaNum (s : Q)
| SigmaSeq (ss : list Q)
| SigmaOther.

(** The calls that touch pixels. *)
Inductive pixel_work : Type :=
| Call_to_tensor (img : Image)
| Call_gaussian_blur (t_img : Image) (kernel_size : list py_number) (sigma : list Q)
| Call_to_pil_image (img : Image).

(** A backend call, recorded before it runs. *)
Definition call {A} (c : pixel_work) (r : result A) : Eff (list pixel_work) A :=
  fun calls => (r, calls ++ [c]).

(** [x % m] on floats, for a positive [m]: the remainder lies in [0, m). *)
Definition float_mod (x m : Q) : Q := (x - m * inject_Z (Qfloor (x / m)))%Q.

(** [ksize % 2 == 0 or ksize < 0] *)
Definition bad_ksize (ksize : py_number) : bool :=
  match ksize with
  | PyInt k => (k `mod` 2 =? 0) || (k <? 0)
  | PyFloat x => Qeq_bool (float_mod x 2) 0 || negb (Qle_bool 0 x)
  end.

(** [ksize * 0.15 + 0.35] *)
Definition default_sigma (ksize : py_number) : Q :=
  (to_float ksize * (15 # 100) + (35 # 100))%Q.

(** Lines 1081-1092 of the module: the pixel work, on the array backend, with
    a PIL image converted on the way in and on the way out. *)
Definition blur_dispatch `{Backends} (img : Image) (kernel_size : list py_number)
    (sigma : list Q) : Eff (list pixel_work) Image :=
  t_img ←
    (if negb (is_tensor img) then call (Call_to_tensor img) (to_tensor img)
     else mret img);
  output ← call (Call_gaussian_blur t_img kernel_size sigma)
             (F_t_gaussian_blur t_img kernel_size sigma);
  if negb (is_tensor img) then call (Call_to_pil_image output) (to_pil_image output)
  else mret output.

Definition gaussian_blur `{Backends} (img : Image) (kernel_size : kernel_arg)
    (sigma : sigma_arg) : Eff (list pixel_work) Image :=
  kernel_size ←
    match kernel_size with
    | KernelInt k => mret [PyInt k; PyInt k]
    | KernelSeq ks => mret ks
    | KernelOther =>
        raise (TypeError "kernel_size should be int or a sequence of integers. Got {}")
    end;
  if negb (length kernel_size =? 2)%nat then
    raise (ValueError "If kernel_size is a sequence its length should be 2. Got {}")
  else if existsb bad_ksize kernel_size then
    raise (ValueError "kernel_size should have odd and positive integers. Got {}")
  else
    sigma ←
      match sigma with
      | SigmaNone => mret (default_sigma <$> kernel_size)
      | SigmaNum s => mret [s; s]
      | SigmaSeq [s] => mret [s; s]
      | SigmaSeq ss => mret ss
      | SigmaOther =>
          raise (TypeError "sigma should be either float or sequence of floats. Got {}")
      end;
    if negb (length sigma =? 2)%nat then
      raise (ValueError "If sigma is a sequence, its length should be 2. Got {}")
    else if existsb (fun s => Qle_bool s 0) sigma then
      raise (ValueError "sigma should have positive values. Got {}")
    else blur_dispatch img kernel_size sigma.

(** ** normalize *)

(** Tensors are objects: a name denotes a location of the store, and the
    methods ending in an underscore write through it. *)
Definition loc : Type := positive.

Inductive normalize_arg : Type :=
| ArgPIL (img : Image)
| ArgTensor (l : loc)
| ArgOther.

Inductive normalize_ret : Type :=
| RetArray (a : list Q)
| RetTensor (l : loc).

(** [t.clone()] *)
Definition clone (l : loc) : Eff (gmap loc flow_tensor) loc :=
  fun σ =>
    match σ !! l with
    | Some t => let l' := fresh (dom σ) in (Ok l', <[l' := t]> σ)
    | None => (Raise (RuntimeError "dangling tensor"), σ)
    end.

(** Read-only access to a tensor. *)
Definition deref (l : loc) : Eff (gmap loc flow_tensor) flow_tensor :=
  fun σ =>
    match σ !! l with
    | Some t => (Ok t, σ)
    | None => (Raise (RuntimeError "dangling tensor"), σ)
    end.

(** An in-place method [t.op_(arg)]: the tensor at [l] is overwritten when
    the kernel succeeds, and [t] itself is returned. *)
Definition in_place (op : flow_tensor -> list Q -> result flow_tensor) (l : loc)
    (arg : list Q) : Eff (gmap loc flow_tensor) loc :=
  fun σ =>
    match σ !! l with
    | Some t =>
        match op t arg with
        | Ok t' => (Ok l, <[l := t']> σ)
        | Raise e => (Raise e, σ)
        end
    | None => (Raise (RuntimeError "dangling tensor"), σ)
    end.

Definition normalize `{Backends} (tensor : normalize_arg) (mean std : list Q)
    (inplace : bool) : Eff (gmap loc flow_tensor) normalize_ret :=
  match tensor with
  | ArgPIL img => im ← lift (np_normalize img mean std); mret (RetArray im)
  | ArgOther => raise (TypeError "Input tensor should be a oneflow tensor. Got {}.")
  | ArgTensor tensor =>
      t ← deref tensor;
      if negb (bool_decide (t_dtype t = float32)) then
        raise (TypeError "Input tensor should be a float tensor. Got {}.")
      else if (length (t_shape t) <? 3)%nat then
        raise (ValueError
          "Expected tensor to be a tensor image of size (..., C, H, W). Got tensor.size() = {}.")
      else
        tensor ← (if negb inplace then clone tensor else mret tensor);
        if existsb (fun s => Qeq_bool s 0) std then
          raise (ValueError
            "std evaluated to zero after conversion to {}, leading to division by zero.")
        else
          tensor ← in_place tensor_sub tensor mean;
          tensor ← in_place tensor_div tensor std;
          mret (RetTensor tensor)
  end.

(** ** Vocabulary of the properties *)

(** The messages the properties name. *)
Definition too_big_msg : string := "Requested crop size {} is bigger than input size {}".

Definition int_warning : string :=
  "Argument interpolation should be of type InterpolationMode instead of int. "
  +:+ "Please, use InterpolationMode enum.".

(** The integer codes of the legacy (PIL) enumeration of filters. *)
Definition legacy_codes : list (Z * InterpolationMode) :=
  [(0, NEAREST); (1, LANCZOS); (2, BILINEAR); (3, BICUBIC); (4, BOX); (5, HAMMING)].

Definition not_implemented : exn :=
  NotImplementedError "Tensor rotate is not implemented yet!".

(** The mode the first lines of [rotate] settle on, when there is one. *)
Definition resolved_mode (interpolation : interpolation_arg) (resample : option Z)
    : option InterpolationMode :=
  match resample, interpolation with
  | Some r, _ => match _interpolation_modes_from_int r with Ok m => Some m | _ => None end
  | None, AsInt i => match _interpolation_modes_from_int i with Ok m => Some m | _ => None end
  | None, AsMode m => Some m
  | None, AsOther => None
  end.

(** No centre, or a point. *)
Definition valid_center (center : center_arg) : bool :=
  match center with
  | CenterNone | CenterSeq [_; _] => true
  | _ => false
  end.

(** The centre [rotate] hands to the matrix builder. *)
Definition center_f (img : Image) (center : center_arg) : list R :=
  match center with
  | CenterSeq center =>
      zip_with (fun c s => (1 * (IZR c - IZR s * (1 / 2)))%R) center (_get_image_size img)
  | _ => [0%R; 0%R]
  end.

(** What a caller can pass as [kernel_size], axis by axis. *)
Definition kernel_axes (kernel_size : kernel_arg) : list py_number :=
  match kernel_size with
  | KernelInt k => [PyInt k; PyInt k]
  | KernelSeq ks => ks
  | KernelOther => []
  end.

(** A positive odd integer. *)
Definition positive_odd (k : Z) : bool := (0 <? k) && Z.odd k.

(** A number whose value is a positive odd integer, whether it is held as an
    [int] or as a [float]. *)
Definition positive_odd_integer (k : py_number) : bool :=
  match k with
  | PyInt n => positive_odd n
  | PyFloat x => Qeq_bool x (inject_Z (Qfloor x)) && positive_odd (Qfloor x)
  end.

(** The kernel sizes the module turns down: an [int] that is not positive
    and odd, and a [float] that is negative or an even whole number. *)
Definition rejected_axis (k : py_number) : Prop :=
  match k with
  | PyInt n => positive_odd n = false
  | PyFloat x => (x < 0)%Q \/ exists n : Z, (x == inject_Z (2 * n))%Q
  end.

(** ** A backend to run the module on

    The properties are proved for every backend.  This one resamples by
    nearest neighbour whatever the filter, refuses on tensors the filters the
    array backend lacks, leaves rotation and blur to the identity, and does
    tensor arithmetic channel by channel. *)

(** The target [(h, w)] of a resize: the size itself, or the shorter edge
    scaled to the number and the other edge in proportion. *)
Definition resize_target (img : Image) (size : size_arg) : result (Z * Z) :=
  match size with
  | SizeSeq [h; w] => Ok (h, w)
  | SizeNum s | SizeSeq [s] =>
      if (width img <=? height img)
      then Ok ((s * height img) `div` width img, s)
      else Ok (s, (s * width img) `div` height img)
  | _ => Raise (ValueError "Size must be an int or a 1 or 2 element tuple/list")
  end.

Definition nearest (img : Image) (size : size_arg) : result Image :=
  '(h, w) ← resize_target img size;
  mret (build (repr img) w h (fun y x =>
          default 0 (pixel img ((y * height img) `div` h) ((x * width img) `div` w)))).

Definition with_repr (k : variant) (img : Image) : Image :=
  mkImage k (width img) (height img) (rows img).

(** The channel of the [i]-th element of a tensor of shape [..., C, H, W]. *)
Definition channel_of (shape : list Z) (i : nat) : nat :=
  match reverse shape with
  | w :: h :: c :: _ => Z.to_nat ((Z.of_nat i `div` (h * w)) `mod` c)
  | _ => 0%nat
  end.

Definition per_channel (op : Q -> Q -> Q) (t : flow_tensor) (arg : list Q)
    : result flow_tensor :=
  match reverse (t_shape t) with
  | _ :: _ :: c :: _ =>
      if (length arg =? 1)%nat then
        Ok (mkTensor (t_dtype t) (t_shape t)
              ((fun x => op x (nth 0 arg 0%Q)) <$> t_data t))
      else if (Z.of_nat (length arg) =? c) then
        Ok (mkTensor (t_dtype t) (t_shape t)
              (imap (fun i x => op x (nth (channel_of (t_shape t) i) arg 0%Q)) (t_data t)))
      else Raise (RuntimeError "The size of tensor a must match the size of tensor b")
  | _ => Raise (RuntimeError "The size of tensor a must match the size of tensor b")
  end.

Definition toy_backends : Backends := {|
  F_pil_resize img size _ := nearest img size;
  F_t_resize img size mode :=
    if bool_decide (mode ∈ ["nearest"; "bilinear"; "bicubic"]) then nearest img size
    else Raise (ValueError "This interpolation mode is unsupported with Tensor input");
  F_pil_rotate img _ _ _ _ _ := Ok img;
  F_t_gaussian_blur t_img _ _ := Ok t_img;
  to_tensor img := Ok (with_repr Tensor img);
  to_pil_image img := Ok (with_repr PIL img);
  np_normalize img mean std :=
    Ok ((fun v => (inject_Z v / 255 - nth 0 mean 0) / nth 0 std 1)%Q <$> concat (rows img));
  tensor_sub := per_channel Qminus;
  tensor_div := per_channel Qdiv
|}.

(** ** Sample inputs *)

Definition img23 (k : variant) : Image := mkImage k 3 2 [[1; 2; 3]; [4; 5; 6]].

(** One float image of shape (2, 1, 2), and a store that holds it. *)
Definition t212 : flow_tensor :=
  mkTensor float32 [2; 1; 2] [1; 2; 3; 4]%Q.

Definition store1 : gmap loc flow_tensor := {[ 1%positive := t212 ]}.

(** ** More vocabulary of the properties *)

Definition resample_warning : string :=
  "Argument resample is deprecated and will be removed since v0.10.0. "
  +:+ "Please, use interpolation instead".

Definition interpolation_type_error : exn :=
  TypeError "Argument interpolation should be a InterpolationMode".

Definition two_dimensions_error : exn :=
  ValueError "Please provide only two dimensions (h, w) for size.".

(** The warnings the first lines of [rotate] and [resize] issue. *)
Definition legacy_warnings (interpolation : interpolation_arg) (resample : option Z)
    : list string :=
  match resample, interpolation with
  | Some _, _ => [resample_warning]
  | None, AsInt _ => [int_warning]
  | None, _ => []
  end.

(** The [center] the PIL backend of [rotate] is handed. *)
Definition center_option (center : center_arg) : option (list Z) :=
  match center with
  | CenterSeq c => Some c
  | _ => None
  end.

(** What a caller can pass as [sigma], axis by axis, given the kernel sizes;
    [None] for what is neither absent, a number nor a sequence. *)
Definition sigma_axes (sigma : sigma_arg) (kernel_size : list py_number)
    : option (list Q) :=
  match sigma with
  | SigmaNone => Some (default_sigma <$> kernel_size)
  | SigmaNum s => Some [s; s]
  | SigmaSeq [s] => Some [s; s]
  | SigmaSeq ss => Some ss
  | SigmaOther => None
  end.

(** The point of the input an output point [(x, y)] is sampled from, under a
    2 by 3 row-major matrix. *)
Definition apply_matrix (matrix : list R) (p : R * R) : R * R :=
  match matrix with
  | [a; b; c; d; e; f] => ((a * p.1 + b * p.2 + c)%R, (d * p.1 + e * p.2 + f)%R)
  | _ => p
  end.

(** The determinant of the linear part of such a matrix. *)
Definition linear_det (matrix : list R) : R :=
  match matrix with
  | [a; b; _; d; e; _] => (a * e - b * d)%R
  | _ => 0%R
  end.

(** ** Conversions between the representations

    [to_tensor] and [to_pil_image] as their checks see their argument: an
    array or a tensor is its shape and dtype, a PIL image its mode, its size
    and the number of its bands.  The values inside are left to numpy and
    oneflow.  [to_pil_image] returns the array and the mode it hands to
    [Image.fromarray]. *)
Module Convert.

Inductive np_dtype : Type :=
| np_uint8 | np_int16 | np_int32 | np_int64 | np_float32 | np_float64.

#[global] Instance np_dtype_eq_dec : EqDecision np_dtype.
Proof. solve_decision. Defined.

Record array : Type := mkArray {
  a_shape : list Z;
  a_dtype : np_dtype
}.

#[global] Instance array_eq_dec : EqDecision array.
Proof. solve_decision. Defined.

(** [pic.mode], [pic.size] as (width, height), and [len(pic.getbands())]. *)
Record pil_image : Type := mkPIL {
  p_mode : string;
  p_size : Z * Z;
  p_bands : Z
}.

(** What a caller can pass as [pic]. *)
Inductive pic_arg : Type :=
| PicPIL (p : pil_image)
| PicArray (a : array)
| PicTensor (a : array)
| PicOther.

Definition ndim (a : array) : nat := length (a_shape a).

(** [a.shape[i]] for an index from the front, and from the back. *)
Definition dim (a : array) (i : nat) : Z := default 0 (a_shape a !! i).
Definition dim_back (a : array) (i : nat) : Z := default 0 (reverse (a_shape a) !! i).

(** [np.transpose(a, perm)] and [a.transpose(perm)], on the shape. *)
Definition transpose (a : array) (perm : list nat) : array :=
  mkArray ((fun i => dim a i) <$> perm) (a_dtype a).

Definition is_floating_point (a : array) : bool :=
  match a_dtype a with
  | np_float32 | np_float64 => true
  | _ => false
  end.

(** [mode_to_nptype.get(pic.mode, np.uint8)] *)
Definition mode_to_nptype (mode : string) : np_dtype :=
  if decide (mode = "I") then np_int32
  else if decide (mode = "I;16") then np_int16
  else if decide (mode = "F") then np_float32
  else np_uint8.

(** [cast(img, float32).div(255)] on a uint8 tensor, the tensor itself
    otherwise. *)
Definition scaled (img : array) : array :=
  if decide (a_dtype img = np_uint8) then mkArray (a_shape img) np_float32 else img.

Definition to_tensor (pic : pic_arg) : result array :=
  match pic with
  | PicArray pic =>
      if negb (bool_decide (ndim pic ∈ [2; 3]%nat)) then
        Raise (ValueError "pic should be 2/3 dimensional. Got {} dimensions.")
      else
        (* handle numpy array *)
        let pic := if (ndim pic =? 2)%nat then mkArray (a_shape pic ++ [1]) (a_dtype pic)
                   else pic in
        let img := transpose pic [2; 0; 1]%nat in
        (* backward compatibility *)
        Ok (scaled img)
  | PicPIL pic =>
      (* handle PIL Image: [np.array(pic, dtype)], times 255 for mode "1",
         reshaped to (height, width, bands); [accimage] is not installed *)
      let img := mkArray [(p_size pic).2; (p_size pic).1; p_bands pic]
                   (mode_to_nptype (p_mode pic)) in
      (* put it from HWC to CHW format *)
      let res := transpose img [2; 0; 1]%nat in
      Ok (scaled res)
  | _ => Raise (TypeError "pic should be PIL Image or ndarray. Got {}")
  end.

(** The mode of a one-channel array, by its dtype. *)
Definition expected_mode (dt : np_dtype) : option string :=
  match dt with
  | np_uint8 => Some "L"
  | np_int16 => Some "I;16"
  | np_int32 => Some "I"
  | np_float32 => Some "F"
  | _ => None
  end.

(** The branches for two, four and three channels: a given mode must be a
    permitted one, and a uint8 array has a default. *)
Definition pick_mode (permitted : list string) (msg : string) (fallback : string)
    (mode : option string) (dt : np_dtype) : result (option string) :=
  match mode with
  | Some m =>
      if bool_decide (m ∈ permitted) then Ok mode else Raise (ValueError msg)
  | None => Ok (if decide (dt = np_uint8) then Some fallback else None)
  end.

Definition to_pil_image (pic : pic_arg) (mode : option string)
    : result (array * string) :=
  pic ←
    match pic with
    | PicTensor a =>
        if negb (bool_decide (ndim a ∈ [2; 3]%nat)) then
          Raise (ValueError "pic should be 2/3 dimensional. Got {} dimensions.")
        else
          (* if 2D image, add channel dimension (CHW) *)
          let a := if (ndim a =? 2)%nat then mkArray (1 :: a_shape a) (a_dtype a) else a in
          (* check number of channels *)
          if dim_back a 2 >? 4 then
            Raise (ValueError "pic should not have > 4 channels. Got {} channels.")
          else Ok (PicTensor a)
    | PicArray a =>
        if negb (bool_decide (ndim a ∈ [2; 3]%nat)) then
          Raise (ValueError "pic should be 2/3 dimensional. Got {} dimensions.")
        else
          (* if 2D image, add channel dimension (HWC) *)
          let a := if (ndim a =? 2)%nat then mkArray (a_shape a ++ [1]) (a_dtype a) else a in
          (* check number of channels *)
          if dim_back a 0 >? 4 then
            Raise (ValueError "pic should not have > 4 channels. Got {} channels.")
          else Ok (PicArray a)
    | _ => Raise (TypeError "pic should be Tensor or ndarray. Got {}")
    end;
  npimg ←
    match pic with
    | PicTensor a =>
        let a := if is_floating_point a && negb (bool_decide (mode = Some "F"))
                 then mkArray (a_shape a) np_uint8 else a in
        Ok (transpose a [1; 2; 0]%nat)
    | PicArray a => Ok a
    | _ => Raise (TypeError "Input pic must be a flow.Tensor or NumPy ndarray, not {}")
    end;
  '(npimg, mode) ←
    (if dim npimg 2 =? 1 then
       let expected := expected_mode (a_dtype npimg) in
       let npimg := mkArray (take 2 (a_shape npimg)) (a_dtype npimg) in
       match mode with
       | Some _ =>
           if negb (bool_decide (mode = expected)) then
             Raise (ValueError "Incorrect mode ({}) supplied for input type {}. Should be {}")
           else Ok (npimg, expected)
       | None => Ok (npimg, expected)
       end
     else if dim npimg 2 =? 2 then
       mode ← pick_mode ["LA"] "Only modes {} are supported for 2D inputs" "LA"
                mode (a_dtype npimg);
       Ok (npimg, mode)
     else if dim npimg 2 =? 4 then
       mode ← pick_mode ["RGBA"; "CMYK"; "RGBX"] "Only modes {} are supported for 4D inputs"
                "RGBA" mode (a_dtype npimg);
       Ok (npimg, mode)
     else
       mode ← pick_mode ["RGB"; "YCbCr"; "HSV"] "Only modes {} are supported for 3D inputs"
                "RGB" mode (a_dtype npimg);
       Ok (npimg, mode));
  match mode with
  | None => Raise (TypeError "Input type {} is not supported")
  | Some mode => Ok (npimg, mode)
  end.

(** The mode a uint8 array of [c] channels gets when none is asked for. *)
Definition default_mode (c : Z) : string :=
  if c =? 1 then "L" else if c =? 2 then "LA" else if c =? 4 then "RGBA" else "RGB".

(** The array [Image.fromarray] receives for an image of [c] channels: the
    channel axis of a one-channel image is dropped. *)
Definition hwc (h w c : Z) : list Z := if c =? 1 then [h; w] else [h; w; c].

(** The modes [to_pil_image] lets through for [c] channels. *)
Definition permitted_modes (c : Z) : list string :=
  if c =? 1 then ["L"; "I;16"; "I"; "F"]
  else if c =? 2 then ["LA"]
  else if c =? 4 then ["RGBA"; "CMYK"; "RGBX"]
  else ["RGB"; "YCbCr"; "HSV"].

End Convert.

(** ** The tables of interpolation names

    A Python dictionary keeps its keys in the order of their first insertion,
    and a later value for a key replaces the earlier one. *)
Module PyDict.
Section dict.
Context {K V : Type} `{EqDecision K}.

Definition dict : Type := list (K * V).

(** [d[k] = v] *)
Fixpoint setitem (d : dict) (k : K) (v : V) : dict :=
  match d with
  | [] => [(k, v)]
  | (k', v') :: d' =>
      if decide (k = k') then (k, v) :: d' else (k', v') :: setitem d' k v
  end.

(** A display [{k1: v1, k2: v2, ...}], and a comprehension over pairs. *)
Definition of_pairs (pairs : list (K * V)) : dict :=
  foldl (fun d kv => setitem d kv.1 kv.2) [] pairs.

(** [d[k]]; [None] stands for the [KeyError]. *)
Fixpoint getitem (d : dict) (k : K) : option V :=
  match d with
  | [] => None
  | (k', v') :: d' => if decide (k = k') then Some v' else getitem d' k
  end.

(** [d.items()] *)
Definition items (d : dict) : list (K * V) := d.
End dict.
Arguments dict : clear implicits.
End PyDict.

(** The constants [Image.NEAREST], ... of PIL, which the module imports. *)
Class PIL_filters : Type := {
  Image_NEAREST : Z;
  Image_BILINEAR : Z;
  Image_BICUBIC : Z;
  Image_BOX : Z;
  Image_HAMMING : Z;
  Image_LANCZOS : Z
}.

Definition _pil_interpolation_to_str `{PIL_filters} : PyDict.dict Z string :=
  PyDict.of_pairs
    [ (Image_NEAREST, "nearest"); (Image_BILINEAR, "bilinear");
      (Image_BICUBIC, "bicubic"); (Image_BOX, "box");
      (Image_HAMMING, "hamming"); (Image_LANCZOS, "lanczos") ].

(** [{b: a for a, b in d.items()}] *)
Definition inverted {K V} `{EqDecision V} (d : PyDict.dict K V) : PyDict.dict V K :=
  PyDict.of_pairs ((fun ab => (ab.2, ab.1)) <$> PyDict.items d).

Definition _str_to_pil_interpolation `{PIL_filters} : PyDict.dict string Z :=
  inverted _pil_interpolation_to_str.

(** The two tables under [if has_interpolation_mode]; they are empty, or
    never made, when the flag is off. *)
Definition _flow_interpolation_to_str (has_interpolation_mode : bool)
    : PyDict.dict InterpolationMode string :=
  if has_interpolation_mode then
    PyDict.of_pairs
      [ (NEAREST, "nearest"); (BILINEAR, "bilinear"); (BICUBIC, "bicubic");
        (BOX, "box"); (HAMMING, "hamming"); (LANCZOS, "lanczos") ]
  else PyDict.of_pairs [].

Definition _str_to_flow_interpolation (has_interpolation_mode : bool)
    : PyDict.dict string InterpolationMode :=
  inverted (_flow_interpolation_to_str has_interpolation_mode).

Definition str_to_pil_interp `{PIL_filters} (mode_str : string) : option Z :=
  PyDict.getitem _str_to_pil_interpolation mode_str.

(** The result is a member of the enumeration or a PIL constant: either way
    something [resize] takes as [interpolation]. *)
Definition str_to_interp_mode `{PIL_filters} (has_interpolation_mode : bool)
    (mode_str : string) : option interpolation_arg :=
  if has_interpolation_mode
  then AsMode <$> PyDict.getitem (_str_to_flow_interpolation true) mode_str
  else AsInt <$> PyDict.getitem _str_to_pil_interpolation mode_str.

(** The constant of PIL for a mode, and the constants of Pillow, which are
    the numbers of [pil_modes_mapping]. *)
Definition pil_filter `{PIL_filters} (m : InterpolationMode) : Z :=
  match m with
  | NEAREST => Image_NEAREST
  | BILINEAR => Image_BILINEAR
  | BICUBIC => Image_BICUBIC
  | BOX => Image_BOX
  | HAMMING => Image_HAMMING
  | LANCZOS => Image_LANCZOS
  end.

Definition all_modes : list InterpolationMode :=
  [NEAREST; BILINEAR; BICUBIC; BOX; HAMMING; LANCZOS].

Definition pillow : PIL_filters := {|
  Image_NEAREST := 0; Image_BILINEAR := 2; Image_BICUBIC := 3;
  Image_BOX := 4; Image_HAMMING := 5; Image_LANCZOS := 1
|}.

(** * Properties *)

Section geometry.
Implicit Types (img : Image) (k : variant) (f : Z -> Z -> Z).

Lemma _get_image_size_eq img : _get_image_size img = [width img; height img].
Proof. unfold _get_image_size. by destruct (is_tensor img). Qed.

Lemma pad_eq img padding fill : pad img padding fill = pad_constant img padding fill.
Proof. unfold pad. by destruct (is_tensor img). Qed.

Lemma crop_eq img top left h w : crop img top left h w = crop_box img top left h w.
Proof. unfold crop. by destruct (is_tensor img). Qed.

Lemma is_image_spec img :
  is_image img = true <->
  0 <= width img /\ 0 <= height img /\
  Z.of_nat (length (rows img)) = height img /\
  Forall (fun r => Z.of_nat (length r) = width img) (rows img).
Proof.
  unfold is_image. rewrite !andb_true_iff, !Z.leb_le, Z.eqb_eq, forallb_forall.
  rewrite Forall_forall. setoid_rewrite Z.eqb_eq. 
  split; intros H; repeat split; try tauto.
  - intros r Hr. apply H. by apply list_elem_of_In.
  - intros r Hr. apply H. by apply list_elem_of_In.
Qed.

Lemma is_image_build k w h f : is_image (build k w h f) = true.
Proof.
  apply is_image_spec. cbn. repeat split; try lia.
  - rewrite length_fmap, length_seqZ. lia.
  - apply Forall_fmap, Forall_forall. intros y _. cbn.
    rewrite length_fmap, length_seqZ. lia.
Qed.

Lemma pixel_build k w h f y x :
  0 <= y < h -> 0 <= x < w -> pixel (build k w h f) y x = Some (f y x).
Proof.
  intros Hy Hx. unfold pixel, build. cbn.
  replace ((0 <=? y) && (0 <=? x)) with true by (symmetry; apply andb_true_iff; lia).
  rewrite list_lookup_fmap, lookup_seqZ_lt by lia. cbn.
  rewrite list_lookup_fmap, lookup_seqZ_lt by lia. cbn.
  f_equal. f_equal; lia.
Qed.

Lemma pixel_in_image img y x :
  is_image img = true -> 0 <= y < height img -> 0 <= x < width img ->
  exists r, rows img !! Z.to_nat y = Some r /\ exists v, r !! Z.to_nat x = Some v
    /\ pixel img y x = Some v.
Proof.
  intros (Hw & Hh & Hlen & Hrows)%is_image_spec Hy Hx.
  destruct (lookup_lt_is_Some_2 (rows img) (Z.to_nat y)) as [r Hr]; [lia|].
  exists r. split; [done|].
  assert (Z.of_nat (length r) = width img) as Hr'.
  { eapply Forall_lookup_1 in Hrows; eauto. }
  destruct (lookup_lt_is_Some_2 r (Z.to_nat x)) as [v Hv]; [lia|].
  exists v. split; [done|]. unfold pixel.
  replace ((0 <=? y) && (0 <=? x)) with true by (symmetry; apply andb_true_iff; lia).
  rewrite Hr. cbn. done.
Qed.

Lemma pixel_nonneg img y x :
  0 <= y -> 0 <= x ->
  pixel img y x = rows img !! Z.to_nat y ≫= (fun r => r !! Z.to_nat x).
Proof.
  intros Hy Hx. unfold pixel.
  by replace ((0 <=? y) && (0 <=? x)) with true by (symmetry; apply andb_true_iff; lia).
Qed.

(** The image at [top], [left] of a larger one, read pixel by pixel. *)
Lemma slice_eq src img top left :
  is_image img = true -> repr src = repr img ->
  (forall y x, 0 <= y < height img -> 0 <= x < width img ->
     pixel src (top + y) (left + x) = pixel img y x) ->
  slice src top left (height img) (width img) = img.
Proof.
  intros Himg Hrepr Hpx.
  pose proof Himg as (Hw & Hh & Hlen & Hrows)%is_image_spec.
  unfold slice, build. destruct img as [k w h rs]. cbn in *. rewrite Hrepr.
  f_equal; [lia | lia |].
  apply list_eq. intros i. rewrite list_lookup_fmap.
  destruct (decide (Z.of_nat i < h)) as [Hi|Hi].
  - rewrite lookup_seqZ_lt by done. cbn.
    destruct (lookup_lt_is_Some_2 rs i) as [r Hr]; [lia|].
    rewrite Hr. f_equal.
    assert (Z.of_nat (length r) = w) as Hr'.
    { eapply Forall_lookup_1 in Hrows; eauto. }
    apply list_eq. intros j. rewrite list_lookup_fmap.
    destruct (decide (Z.of_nat j < w)) as [Hj|Hj].
    + rewrite lookup_seqZ_lt by done. cbn.
      rewrite Hpx by lia. rewrite pixel_nonneg by lia. cbn.
      replace (Z.to_nat (0 + Z.of_nat i)) with i by lia.
      replace (Z.to_nat (0 + Z.of_nat j)) with j by lia.
      rewrite Hr. cbn.
      destruct (lookup_lt_is_Some_2 r j) as [v Hv]; [lia|].
      by rewrite Hv.
    + rewrite lookup_seqZ_ge by lia. cbn.
      symmetry. apply lookup_ge_None. lia.
  - rewrite lookup_seqZ_ge by lia. cbn.
    symmetry. apply lookup_ge_None. lia.
Qed.

(** Slicing an image along its own bounds gives the image back. *)
Lemma slice_full img :
  is_image img = true -> slice img 0 0 (height img) (width img) = img.
Proof.
  intros Himg. apply slice_eq; [done | done |].
  intros y x _ _. by rewrite !Z.add_0_l.
Qed.

Lemma crop_box_full img :
  is_image img = true -> crop_box img 0 0 (height img) (width img) = img.
Proof.
  intros Himg. unfold crop_box. cbn.
  replace ((0 + width img >? width img) || (0 + height img >? height img))
    with false by (symmetry; apply orb_false_iff; lia).
  by apply slice_full.
Qed.

Lemma crop_box_size img top left h w :
  0 <= h -> 0 <= w ->
  width (crop_box img top left h w) = w /\ height (crop_box img top left h w) = h
  /\ is_image (crop_box img top left h w) = true.
Proof.
  intros Hh Hw. unfold crop_box, slice. cbn zeta.
  destruct (_ || _); cbn; repeat split; try lia; apply is_image_build.
Qed.

Lemma crop_box_repr img top left h w : repr (crop_box img top left h w) = repr img.
Proof. unfold crop_box, slice. cbn zeta. by destruct (_ || _). Qed.

(** Padding and then cropping at the original offsets gives the image back,
    whatever the fill. *)
Lemma crop_box_pad_ltrb img l t r b fill :
  is_image img = true -> 0 <= l -> 0 <= t -> 0 <= r -> 0 <= b ->
  crop_box (pad_ltrb img l t r b fill) t l (height img) (width img) = img.
Proof.
  intros Himg Hl Ht Hr Hb.
  pose proof Himg as (Hw & Hh & _)%is_image_spec.
  unfold crop_box. cbn zeta.
  replace ((l <? 0) || (t <? 0)
           || (l + width img >? width (pad_ltrb img l t r b fill))
           || (t + height img >? height (pad_ltrb img l t r b fill))) with false
    by (symmetry; cbn; rewrite !orb_false_iff; repeat split; lia).
  apply slice_eq; [done | done |].
  intros y x Hy Hx. unfold pad_ltrb. rewrite pixel_build by lia.
  replace (t + y - t) with y by lia. replace (l + x - l) with x by lia.
  destruct (pixel_in_image img y x) as (_ & _ & v & _ & ->); done.
Qed.

(** Flipping twice gives the image back. *)
Lemma flip_width_involutive img : flip_width (flip_width img) = img.
Proof.
  destruct img as [k w h rs]. unfold flip_width. cbn. f_equal.
  rewrite <- list_fmap_compose. rewrite <- (list_fmap_id rs) at 2.
  apply list_fmap_ext. intros _ row _. cbn. apply reverse_involutive.
Qed.

Lemma flip_height_involutive img : flip_height (flip_height img) = img.
Proof.
  destruct img as [k w h rs]. unfold flip_height. cbn. f_equal.
  apply reverse_involutive.
Qed.

Lemma hflip_involutive img : hflip (hflip img) = img.
Proof.
  unfold hflip, is_tensor, F_pil.hflip, F_t.hflip.
  destruct img as [[] w h rs]; cbn; apply flip_width_involutive.
Qed.

Lemma vflip_involutive img : vflip (vflip img) = img.
Proof.
  unfold vflip, is_tensor, F_pil.vflip, F_t.vflip.
  destruct img as [[] w h rs]; cbn; apply flip_height_involutive.
Qed.

(** [pad] with four values and then [crop] at the original offsets. *)
Lemma crop_pad img l t r b fill :
  is_image img = true -> 0 <= l -> 0 <= t -> 0 <= r -> 0 <= b ->
  (padded ← pad img [l; t; r; b] fill;
   mret (crop padded t l (height img) (width img))) = Ok img.
Proof.
  intros. rewrite pad_eq. cbn. rewrite crop_eq. f_equal.
  by apply crop_box_pad_ltrb.
Qed.

(** A box inside the image is cut out pixel for pixel. *)
Lemma pixel_crop_box_inside img top left h w y x :
  is_image img = true ->
  0 <= top -> 0 <= left -> top + h <= height img -> left + w <= width img ->
  0 <= y < h -> 0 <= x < w ->
  pixel (crop_box img top left h w) y x = pixel img (top + y) (left + x).
Proof.
  intros Himg Ht Hl Hb Hr Hy Hx. unfold crop_box. cbn zeta.
  replace ((left <? 0) || (top <? 0) || (left + w >? width img)
           || (top + h >? height img)) with false
    by (symmetry; rewrite !orb_false_iff; repeat split; lia).
  unfold slice. rewrite pixel_build by done.
  destruct (pixel_in_image img (top + y) (left + x)) as (r & _ & v & _ & ->);
    [done | lia | lia |]. done.
Qed.
End geometry.

Section rounding.
Lemma Qfloor_half n : Qfloor (inject_Z n / 2) = n `div` 2.
Proof. unfold Qdiv, Qmult, Qinv, inject_Z, Qfloor. cbn. f_equal. lia. Qed.

(** [round(n / 2.0)]: exact on even [n], the even neighbour on odd [n]. *)
Lemma py_round_half n :
  py_round (inject_Z n / 2) =
  if Z.even n then n `div` 2
  else if Z.even (n `div` 2) then n `div` 2 else n `div` 2 + 1.
Proof.
  unfold py_round. rewrite Qfloor_half.
  pose proof (Z.div_mod n 2 ltac:(lia)) as Hdm.
  pose proof (Z.mod_pos_bound n 2 ltac:(lia)) as Hb.
  destruct (Z.even n) eqn:Hev.
  - assert (n `mod` 2 = 0) as Hm by (rewrite Zmod_even, Hev; done).
    replace (_ ?= _)%Q with Lt; [done|].
    symmetry. unfold Qcompare, Qminus, Qplus, Qopp, Qdiv, Qmult, Qinv, inject_Z. cbn.
    apply Z.compare_lt_iff. lia.
  - assert (n `mod` 2 = 1) as Hm by (rewrite Zmod_even, Hev; done).
    replace (_ ?= _)%Q with Eq; [done|].
    symmetry. unfold Qcompare, Qminus, Qplus, Qopp, Qdiv, Qmult, Qinv, inject_Z. cbn.
    apply Z.compare_eq_iff. lia.
Qed.

(** [py_round] is within a half of its argument, and even on a tie. *)
Lemma py_round_nearest x :
  (Qabs (x - inject_Z (py_round x)) <= 1 # 2)%Q /\
  ((x - inject_Z (Qfloor x) == 1 # 2)%Q -> Z.even (py_round x) = true).
Proof.
  unfold py_round.
  pose proof (Qfloor_le x) as Hlo. pose proof (Qlt_floor x) as Hhi.
  set (f := Qfloor x) in *.
  assert (inject_Z (f + 1) = inject_Z f + 1)%Q as Hf1 by apply inject_Z_plus.
  rewrite Hf1 in Hhi.
  destruct (Qcompare_spec (x - inject_Z f) (1 # 2)) as [Heq|Hlt|Hgt].
  - split.
    + destruct (Z.even f); [|rewrite Hf1]; apply Qabs_Qle_condition; split; Lqa.lra.
    + intros _. destruct (Z.even f) eqn:Hev; [done|].
      rewrite Z.even_add, Hev. done.
  - split; [|intros Heq; Lqa.lra].
    apply Qabs_Qle_condition; split; Lqa.lra.
  - split; [|intros Heq; Lqa.lra].
    rewrite Hf1. apply Qabs_Qle_condition; split; Lqa.lra.
Qed.

Lemma py_round_zero : py_round (inject_Z 0 / 2) = 0.
Proof. reflexivity. Qed.

Lemma py_round_half_bounds n : 0 <= n -> 0 <= py_round (inject_Z n / 2) <= n.
Proof.
  intros Hn. rewrite py_round_half.
  pose proof (Z.div_mod n 2 ltac:(lia)) as Hdm.
  pose proof (Z.mod_pos_bound n 2 ltac:(lia)) as Hb.
  destruct (Z.even n) eqn:Hev; [lia|].
  assert (n `mod` 2 = 1) as Hm by (rewrite Zmod_even, Hev; done).
  destruct (Z.even (n `div` 2)); lia.
Qed.
End rounding.

Section center_crop_props.
Implicit Types (img : Image).

(** The trailing share [(e + 1) // 2] is what the leading share [e // 2]
    leaves of [e]. *)
Lemma trailing_share e : (e + 1) `div` 2 = e - e `div` 2.
Proof. Z.to_euclidean_division_equations. lia. Qed.

(** The padding [center_crop] asks for on the low and on the high side of an
    axis, in terms of the excess of the request over the source. *)
Lemma low_side c s :
  (if c >? s then (c - s) `div` 2 else 0) = Z.max 0 (c - s) `div` 2.
Proof.
  rewrite Z.gtb_ltb. destruct (Z.ltb_spec s c).
  - f_equal. lia.
  - by replace (Z.max 0 (c - s)) with 0 by lia.
Qed.

Lemma high_side c s :
  (if c >? s then (c - s + 1) `div` 2 else 0) =
  Z.max 0 (c - s) - Z.max 0 (c - s) `div` 2.
Proof.
  rewrite Z.gtb_ltb. destruct (Z.ltb_spec s c).
  - replace (Z.max 0 (c - s)) with (c - s) by lia. apply trailing_share.
  - by replace (Z.max 0 (c - s)) with 0 by lia.
Qed.

(** C1.  When the requested height or width exceeds the source,
    [center_crop] first pads with constant fill 0, the excess of each axis
    split into [excess // 2] on the low side and [excess - excess // 2] on
    the high side; it then crops at the offsets
    [round((source - target) / 2.0)], rounded half to even, and the image it
    returns has exactly the requested size. *)
Theorem center_crop_pads_then_crops img crop_height crop_width :
  is_image img = true -> 0 <= crop_height -> 0 <= crop_width ->
  crop_height > height img \/ crop_width > width img ->
  let ew := Z.max 0 (crop_width - width img) in
  let eh := Z.max 0 (crop_height - height img) in
  exists padded out,
    pad img [ew `div` 2; eh `div` 2; ew - ew `div` 2; eh - eh `div` 2] 0 = Ok padded /\
    center_crop img (SizeSeq [crop_height; crop_width]) = Ok out /\
    out = crop padded (py_round (inject_Z (height padded - crop_height) / 2))
                      (py_round (inject_Z (width padded - crop_width) / 2))
                      crop_height crop_width /\
    width out = crop_width /\ height out = crop_height /\ is_image out = true.
Proof.
  intros Himg Hch Hcw Hex ew eh.
  pose proof Himg as (Hw & Hh & _)%is_image_spec.
  set (l := ew `div` 2). set (t := eh `div` 2).
  set (r := ew - ew `div` 2). set (b := eh - eh `div` 2).
  set (padded := pad_ltrb img l t r b 0).
  assert (width padded = Z.max (width img) crop_width) as Ew.
  { cbn. subst l r ew. lia. }
  assert (height padded = Z.max (height img) crop_height) as Eh.
  { cbn. subst t b eh. lia. }
  assert (is_image padded = true) as Hpadded by apply is_image_build.
  exists padded,
    (crop padded (py_round (inject_Z (height padded - crop_height) / 2))
       (py_round (inject_Z (width padded - crop_width) / 2)) crop_height crop_width).
  split; [by rewrite pad_eq|].
  split; [|split; [done | rewrite crop_eq; by apply crop_box_size]].
  unfold center_crop. cbn [square_size].
  rewrite _get_image_size_eq. cbn [unpack2 mbind result_bind].
  replace ((crop_width >? width img) || (crop_height >? height img)) with true
    by (symmetry; apply orb_true_iff; lia).
  rewrite !low_side, !high_side, pad_eq. fold ew eh. fold r b. fold l t.
  cbn [pad_constant parse_padding mbind result_bind mret result_ret].
  fold padded. rewrite _get_image_size_eq. cbn [unpack2 mbind result_bind].
  destruct ((crop_width =? width padded) && (crop_height =? height padded)) eqn:Heq;
    [|done].
  apply andb_true_iff in Heq as [Hq1%Z.eqb_eq Hq2%Z.eqb_eq].
  rewrite <- Hq1, <- Hq2, !Z.sub_diag, py_round_zero, crop_eq, Hq1, Hq2.
  by rewrite crop_box_full.
Qed.
End center_crop_props.

Lemma center_crop_pads_then_crops_witness :
  is_image (img23 Tensor) = true /\ 0 <= 1 /\ 0 <= 5 /\
  (1 > height (img23 Tensor) \/ 5 > width (img23 Tensor)) /\
  exists out,
    center_crop (img23 Tensor) (SizeSeq [1; 5]) = Ok out /\
    width out = 5 /\ height out = 1.
Proof.
  assert (is_image (img23 Tensor) = true) as H1 by reflexivity.
  assert (0 <= 1) as H2 by lia.
  assert (0 <= 5) as H3 by lia.
  assert (1 > height (img23 Tensor) \/ 5 > width (img23 Tensor)) as H4
    by (right; reflexivity).
  repeat (split; [assumption|]).
  destruct (center_crop_pads_then_crops (img23 Tensor) 1 5 H1 H2 H3 H4)
    as (padded & out & _ & Hout & _ & Hw & Hh & _).
  exists out. auto.
Defined.

Section multi_crop_props.
Implicit Types (img : Image) (size : size_arg).

(** [center_crop] of a size that fits crops without padding. *)
Lemma center_crop_fits img h w :
  h <= height img -> w <= width img ->
  center_crop img (SizeSeq [h; w]) =
  Ok (crop img (py_round (inject_Z (height img - h) / 2))
        (py_round (inject_Z (width img - w) / 2)) h w).
Proof.
  intros Hh Hw. unfold center_crop. cbn [square_size].
  rewrite _get_image_size_eq. cbn [unpack2 mbind result_bind].
  by replace ((w >? width img) || (h >? height img)) with false
    by (symmetry; apply orb_false_iff; lia).
Qed.

Lemma five_crop_fits img size h w :
  square_size size = [h; w] -> h <= height img -> w <= width img ->
  five_crop img size =
  Ok [ crop img 0 0 h w;
       crop img 0 (width img - w) h w;
       crop img (height img - h) 0 h w;
       crop img (height img - h) (width img - w) h w;
       crop img (py_round (inject_Z (height img - h) / 2))
         (py_round (inject_Z (width img - w) / 2)) h w ].
Proof.
  intros Hsize Hh Hw. unfold five_crop. rewrite Hsize. cbn [length Nat.eqb negb].
  rewrite _get_image_size_eq. cbn [unpack2 mbind result_bind].
  replace ((w >? width img) || (h >? height img)) with false
    by (symmetry; apply orb_false_iff; lia).
  by rewrite center_crop_fits.
Qed.

Lemma five_crop_too_big img size h w :
  square_size size = [h; w] -> h > height img \/ w > width img ->
  five_crop img size = Raise (ValueError too_big_msg).
Proof.
  intros Hsize Hex. unfold five_crop. rewrite Hsize. cbn [length Nat.eqb negb].
  rewrite _get_image_size_eq. cbn [unpack2 mbind result_bind].
  by replace ((w >? width img) || (h >? height img)) with true
    by (symmetry; apply orb_true_iff; lia).
Qed.

Lemma crop_size img top left h w :
  0 <= h -> 0 <= w ->
  height (crop img top left h w) = h /\ width (crop img top left h w) = w.
Proof.
  intros Hh Hw. rewrite crop_eq.
  destruct (crop_box_size img top left h w) as (? & ? & _); auto.
Qed.

(** C4.  On a two-element size [(h, w)], [five_crop] raises the size
    mismatch [ValueError] exactly when [h] exceeds the image height or [w]
    the image width, and it raises nothing else; it never pads.  Otherwise
    it returns exactly five images, each of shape [(h, w)]. *)
Theorem five_crop_raises_iff_too_big img h w :
  (five_crop img (SizeSeq [h; w]) = Raise (ValueError too_big_msg)
     <-> h > height img \/ w > width img) /\
  (is_ok (five_crop img (SizeSeq [h; w])) = false
     <-> h > height img \/ w > width img) /\
  (0 <= h -> 0 <= w -> ~ (h > height img \/ w > width img) ->
     exists tl tr bl br center,
       five_crop img (SizeSeq [h; w]) = Ok [tl; tr; bl; br; center] /\
       Forall (fun c => height c = h /\ width c = w) [tl; tr; bl; br; center]).
Proof.
  destruct (decide (h > height img \/ w > width img)) as [Hex|Hfit].
  - rewrite (five_crop_too_big img _ h w) by done.
    repeat split; done.
  - rewrite (five_crop_fits img _ h w) by (done || lia).
    repeat split; try done.
    intros Hh Hw _. do 5 eexists. split; [reflexivity|].
    repeat apply Forall_cons_2; try apply Forall_nil_2; by apply crop_size.
Qed.

(** C10.  With the crop size equal to the image size, [five_crop] succeeds
    (the size check is a strict comparison) and each of the five images it
    returns is the whole original image. *)
Theorem five_crop_full_size img :
  is_image img = true ->
  five_crop img (SizeSeq [height img; width img]) = Ok [img; img; img; img; img].
Proof.
  intros Himg.
  rewrite (five_crop_fits img _ (height img) (width img)) by (done || lia).
  rewrite !Z.sub_diag, py_round_zero, crop_eq. by rewrite crop_box_full.
Qed.

Lemma square_size_idemp size : square_size (SizeSeq (square_size size)) = square_size size.
Proof. destruct size as [n|[|x [|y l]]]; done. Qed.

Lemma five_crop_square_size img size :
  five_crop img (SizeSeq (square_size size)) = five_crop img size.
Proof. unfold five_crop. by rewrite square_size_idemp. Qed.

Lemma flip_size img (vertical_flip : bool) :
  let img' := if vertical_flip then vflip img else hflip img in
  width img' = width img /\ height img' = height img.
Proof. unfold vflip, hflip. by destruct vertical_flip, (is_tensor img). Qed.

(** C5.  [ten_crop] is [five_crop] of the image followed by [five_crop] of
    the flipped image, flipped vertically when [vertical_flip] is set and
    horizontally otherwise; what it returns is the ten images
    [tl, tr, bl, br, center, tl', tr', bl', br', center'] in this order. *)
Theorem ten_crop_is_five_crop_twice img size (vertical_flip : bool) :
  let flipped := if vertical_flip then vflip img else hflip img in
  ten_crop img size vertical_flip =
    (first_five ← five_crop img size;
     second_five ← five_crop flipped size;
     mret (first_five ++ second_five)) /\
  (forall out, ten_crop img size vertical_flip = Ok out ->
     exists tl tr bl br center tl' tr' bl' br' center',
       out = [tl; tr; bl; br; center; tl'; tr'; bl'; br'; center'] /\
       five_crop img size = Ok [tl; tr; bl; br; center] /\
       five_crop flipped size = Ok [tl'; tr'; bl'; br'; center']) /\
  (forall h w, square_size size = [h; w] -> h <= height img -> w <= width img ->
     exists out, ten_crop img size vertical_flip = Ok out /\ length out = 10%nat).
Proof.
  intros flipped.
  assert (ten_crop img size vertical_flip =
    (first_five ← five_crop img size;
     second_five ← five_crop flipped size;
     mret (first_five ++ second_five))) as Heq.
  { unfold ten_crop. rewrite !five_crop_square_size.
    destruct (negb (length (square_size size) =? 2)%nat) eqn:Hlen; [|done].
    unfold five_crop. by rewrite Hlen. }
  split; [done|]. split.
  - intros out. rewrite Heq.
    destruct (five_crop img size) as [first_five|] eqn:H1; [|done].
    destruct (five_crop flipped size) as [second_five|] eqn:H2; [|done].
    cbn. intros [= <-].
    assert (forall i, (exists a b c d e, five_crop i size = Ok [a; b; c; d; e])
                      \/ is_ok (five_crop i size) = false) as Hshape.
    { intros i. unfold five_crop.
      destruct (negb _); [by right|].
      rewrite _get_image_size_eq. cbn [unpack2 mbind result_bind].
      destruct (unpack2 (square_size size)) as [[ch cw]|]; [|by right].
      cbn [mbind result_bind]. destruct (_ || _); [by right|].
      destruct (center_crop i _); [|by right]. left. by do 5 eexists. }
    destruct (Hshape img) as [(a & b & c & d & e & Ha)|Ha]; [|by rewrite H1 in Ha].
    destruct (Hshape flipped) as [(a' & b' & c' & d' & e' & Ha')|Ha']; [|by rewrite H2 in Ha'].
    rewrite H1 in Ha. rewrite H2 in Ha'. simplify_eq.
    by do 10 eexists.
  - intros h w Hsize Hh Hw. rewrite Heq.
    destruct (flip_size img vertical_flip) as [Ew Eh]. fold flipped in Ew, Eh.
    rewrite (five_crop_fits img size h w) by done.
    rewrite (five_crop_fits flipped size h w) by (done || lia).
    eexists. split; [reflexivity|done].
Qed.
End multi_crop_props.

Lemma five_crop_raises_iff_too_big_witness :
  0 <= 1 /\ 0 <= 2 /\
  ~ (1 > height (img23 Tensor) \/ 2 > width (img23 Tensor)) /\
  exists tl tr bl br center,
    five_crop (img23 Tensor) (SizeSeq [1; 2]) = Ok [tl; tr; bl; br; center] /\
    Forall (fun c => height c = 1 /\ width c = 2) [tl; tr; bl; br; center].
Proof.
  assert (0 <= 1) as H1 by lia.
  assert (0 <= 2) as H2 by lia.
  assert (~ (1 > height (img23 Tensor) \/ 2 > width (img23 Tensor))) as H3
    by (cbn; lia).
  repeat (split; [assumption|]).
  exact (proj2 (proj2 (five_crop_raises_iff_too_big (img23 Tensor) 1 2)) H1 H2 H3).
Defined.

Lemma five_crop_full_size_witness :
  is_image (img23 PIL) = true /\
  five_crop (img23 PIL) (SizeSeq [height (img23 PIL); width (img23 PIL)]) =
    Ok [img23 PIL; img23 PIL; img23 PIL; img23 PIL; img23 PIL].
Proof.
  assert (is_image (img23 PIL) = true) as H1 by reflexivity.
  split; [assumption|]. exact (five_crop_full_size (img23 PIL) H1).
Defined.

Lemma ten_crop_is_five_crop_twice_witness :
  square_size (SizeNum 2) = [2; 2] /\ 2 <= height (img23 Tensor) /\
  2 <= width (img23 Tensor) /\
  exists out, ten_crop (img23 Tensor) (SizeNum 2) true = Ok out /\ length out = 10%nat.
Proof.
  assert (square_size (SizeNum 2) = [2; 2]) as H1 by reflexivity.
  assert (2 <= height (img23 Tensor)) as H2 by (cbn; lia).
  assert (2 <= width (img23 Tensor)) as H3 by (cbn; lia).
  repeat (split; [assumption|]).
  exact (proj2 (proj2 (ten_crop_is_five_crop_twice (img23 Tensor) (SizeNum 2) true))
           2 2 H1 H2 H3).
Defined.

Section affine_props.
Open Scope R_scope.

Lemma py_div_ok x y : y <> 0 -> py_div x y = Ok (x / y).
Proof. intros Hy. unfold py_div. by destruct (Req_EM_T y 0). Qed.

Lemma radians_0 : radians 0 = 0.
Proof. unfold radians. lra. Qed.

(** The builder, run on two-element arguments away from the zero divisors. *)
Lemma inverse_affine_matrix_run cx cy angle tx ty scale shx shy :
  scale <> 0 -> cos (radians shy) <> 0 ->
  _get_inverse_affine_matrix [cx; cy] angle [tx; ty] scale [shx; shy] =
  Ok [ (- sin (radians angle - radians shy) * tan (radians shx) / cos (radians shy)
          + cos (radians angle)) / scale;
       - (- cos (radians angle - radians shy) * tan (radians shx) / cos (radians shy)
          - sin (radians angle)) / scale;
       0 / scale +
         ((- sin (radians angle - radians shy) * tan (radians shx) / cos (radians shy)
             + cos (radians angle)) / scale * (- cx - tx)
          + - (- cos (radians angle - radians shy) * tan (radians shx) / cos (radians shy)
               - sin (radians angle)) / scale * (- cy - ty)) + cx;
       - (sin (radians angle - radians shy) / cos (radians shy)) / scale;
       cos (radians angle - radians shy) / cos (radians shy) / scale;
       0 / scale +
         (- (sin (radians angle - radians shy) / cos (radians shy)) / scale * (- cx - tx)
          + cos (radians angle - radians shy) / cos (radians shy) / scale * (- cy - ty))
         + cy ].
Proof.
  intros Hscale Hcos. unfold _get_inverse_affine_matrix.
  cbn [fmap list_fmap unpack2 mbind result_bind].
  rewrite !py_div_ok by done. cbn [mbind result_bind].
  cbn [mapM mbind result_bind mret result_ret].
  rewrite !py_div_ok by done. cbn [mbind result_bind mret result_ret].
  reflexivity.
Qed.

Lemma py_div_zero x : py_div x 0 = Raise ZeroDivisionError.
Proof. unfold py_div. destruct (Req_EM_T 0 0) as [_|Hne]; [reflexivity|]. by destruct Hne. Qed.

(** A zero [scale] stops the builder at its first division by it. *)
Lemma inverse_affine_matrix_zero_scale cx cy angle tx ty shx shy :
  cos (radians shy) <> 0 ->
  _get_inverse_affine_matrix [cx; cy] angle [tx; ty] 0 [shx; shy] =
  Raise ZeroDivisionError.
Proof.
  intros Hcos. unfold _get_inverse_affine_matrix.
  cbn [fmap list_fmap unpack2 mbind result_bind].
  rewrite !py_div_ok by done. cbn [mbind result_bind mapM].
  rewrite !py_div_zero. reflexivity.
Qed.

(** C2.  With [a], [b], [c], [d] as in the source (angles in radians),
    the builder returns [[d, -b, 0, -c, a, 0]] with every entry divided by
    [scale] and the entries 2 and 5 then corrected by the centre and
    translation terms; the identity parameters give [[1, 0, 0, 0, 1, 0]].
    The divisors [scale] and [cos sy] are taken away from zero, where
    Python's division raises. *)
Theorem inverse_affine_matrix_formula cx cy angle tx ty scale shx shy :
  scale <> 0 -> cos (radians shy) <> 0 ->
  let rot := radians angle in
  let sx := radians shx in
  let sy := radians shy in
  let a := cos (rot - sy) / cos sy in
  let b := - cos (rot - sy) * tan sx / cos sy - sin rot in
  let c := sin (rot - sy) / cos sy in
  let d := - sin (rot - sy) * tan sx / cos sy + cos rot in
  _get_inverse_affine_matrix [cx; cy] angle [tx; ty] scale [shx; shy] =
    Ok [ d / scale; - b / scale;
         0 / scale + (d / scale * (- cx - tx) + - b / scale * (- cy - ty)) + cx;
         - c / scale; a / scale;
         0 / scale + (- c / scale * (- cx - tx) + a / scale * (- cy - ty)) + cy ]
  /\ _get_inverse_affine_matrix [0; 0] 0 [0; 0] 1 [0; 0] = Ok [1; 0; 0; 0; 1; 0].
Proof.
  intros Hscale Hcos rot sx sy a b c d.
  split; [by apply inverse_affine_matrix_run|].
  rewrite inverse_affine_matrix_run by (rewrite ?radians_0, ?cos_0; lra).
  rewrite !radians_0, Rminus_diag, cos_0, sin_0, tan_0.
  f_equal. repeat (apply (f_equal2 cons); [lra|]). reflexivity.
Qed.
End affine_props.

Lemma inverse_affine_matrix_formula_witness :
  (2 <> 0)%R /\ (cos (radians 0) <> 0)%R /\
  _get_inverse_affine_matrix [0; 0]%R 0%R [0; 0]%R 1%R [0; 0]%R =
    Ok [1; 0; 0; 0; 1; 0]%R.
Proof.
  assert (2 <> 0)%R as H1 by lra.
  assert (cos (radians 0) <> 0)%R as H2 by (rewrite radians_0, cos_0; lra).
  repeat (split; [assumption|]).
  exact (proj2 (inverse_affine_matrix_formula 1 1 90 0 0 2 0 0 H1 H2)).
Defined.

Section dispatch_props.
Context `{Backends}.
Implicit Types (img : Image) (ws : list string).

(** A call with a member of the enumeration issues no warning. *)
Lemma resize_mode_silent img size m ws : (resize img size (AsMode m) ws).2 = ws.
Proof.
  unfold resize. cbn. destruct (negb (is_tensor img)); reflexivity.
Qed.

(** C8.  Each legacy integer code is accepted by [resize] and mapped onto
    its member of [InterpolationMode] (0 to NEAREST, 1 to LANCZOS, 2 to
    BILINEAR, 3 to BICUBIC, 4 to BOX, 5 to HAMMING); one warning is issued,
    which is not an error, and the call then does exactly what the call
    with that member does. *)
Theorem resize_accepts_legacy_codes img size ws :
  Forall (fun '(i, m) =>
    _interpolation_modes_from_int i = Ok m /\
    resize img size (AsInt i) ws =
      ((resize img size (AsMode m) ws).1, ws ++ [int_warning]) /\
    (resize img size (AsMode m) ws).2 = ws) legacy_codes.
Proof.
  unfold legacy_codes.
  repeat apply Forall_cons_2; try apply Forall_nil_2;
    (split; [reflexivity|]); (split; [|apply resize_mode_silent]);
    unfold resize; cbn; destruct (negb (is_tensor img)); reflexivity.
Qed.

Lemma rotate_matrix_ok cx cy angle :
  exists matrix,
    _get_inverse_affine_matrix [cx; cy] angle [0%R; 0%R] 1%R [0%R; 0%R] = Ok matrix.
Proof.
  eexists. apply inverse_affine_matrix_run.
  - lra.
  - rewrite radians_0, cos_0. lra.
Qed.

Ltac run_eff :=
  unfold mbind, Eff_bind, mret, Eff_ret, raise, lift, warn; cbn.

(** C3.  On a tensor image [rotate] never returns an image, whatever the
    parameters; on valid parameters it computes the inverse affine matrix
    and then raises [NotImplementedError], Python's name for the
    unsupported operation. *)
Theorem rotate_tensor_fails_fast img angle interpolation expand center fill resample ws :
  is_tensor img = true ->
  is_ok (rotate img angle interpolation expand center fill resample ws).1 = false /\
  (forall x m,
     angle = AngleNum x -> resolved_mode interpolation resample = Some m ->
     valid_center center = true ->
     (exists matrix,
        _get_inverse_affine_matrix (center_f img center) (- x)%R [0%R; 0%R] 1%R
          [0%R; 0%R] = Ok matrix) /\
     (rotate img angle interpolation expand center fill resample ws).1 =
       Raise not_implemented).
Proof.
  intros Ht. split.
  - unfold rotate. rewrite Ht. run_eff.
    repeat (case_match; simplify_eq; cbn; try done).
  - intros x m -> Hm Hc.
    assert (exists cx cy, center_f img center = [cx; cy]) as (cx & cy & Hcf).
    { unfold center_f. rewrite _get_image_size_eq.
      destruct center as [|[|c1 [|c2 [|]]]|]; try done; cbn; eauto. }
    destruct (rotate_matrix_ok cx cy (- x)%R) as [matrix Hmatrix].
    rewrite Hcf. split; [eauto|].
    unfold rotate. rewrite Ht. run_eff.
    unfold resolved_mode in Hm. unfold center_f in Hcf.
    repeat (case_match; simplify_eq; cbn in *; try done).
Qed.
End dispatch_props.

Lemma rotate_tensor_fails_fast_witness :
  is_tensor (img23 Tensor) = true /\
  resolved_mode (AsInt 2) None = Some BILINEAR /\
  valid_center (CenterSeq [1; 1]) = true /\
  (@rotate toy_backends (img23 Tensor) (AngleNum 90) (AsInt 2) false
     (CenterSeq [1; 1]) None None []).1 = Raise not_implemented.
Proof.
  assert (is_tensor (img23 Tensor) = true) as H1 by reflexivity.
  assert (resolved_mode (AsInt 2) None = Some BILINEAR) as H2 by reflexivity.
  assert (valid_center (CenterSeq [1; 1]) = true) as H3 by reflexivity.
  repeat (split; [assumption|]).
  exact (proj2 (proj2 (@rotate_tensor_fails_fast toy_backends (img23 Tensor)
                         (AngleNum 90) (AsInt 2) false (CenterSeq [1; 1]) None None [] H1)
                  90%R BILINEAR eq_refl H2 H3)).
Defined.

Section blur_props.
Context `{Backends}.
Implicit Types (img : Image) (calls : list pixel_work).

Lemma bad_ksize_spec k : bad_ksize (PyInt k) = negb (positive_odd k).
Proof.
  unfold bad_ksize, positive_odd. rewrite Zmod_odd.
  destruct (Z.odd k) eqn:Hodd, (Z.ltb_spec k 0), (Z.ltb_spec 0 k); cbn; try done; try lia.
  assert (k = 0) as -> by lia. done.
Qed.

Lemma default_sigma_eq k :
  default_sigma (PyInt k) = ((15 # 100) * inject_Z k + (35 # 100))%Q.
Proof.
  unfold default_sigma, to_float, Qplus, Qmult, inject_Z. cbn. f_equal. lia.
Qed.

Lemma default_sigma_positive k : 0 < k -> Qle_bool (default_sigma (PyInt k)) 0 = false.
Proof.
  intros Hk. apply not_true_is_false. rewrite Qle_bool_iff.
  unfold default_sigma, to_float, Qle, Qplus, Qmult, inject_Z. cbn. lia.
Qed.

Lemma float_mod_2_zero x :
  Qeq_bool (float_mod x 2) 0 = true <-> exists n : Z, (x == inject_Z (2 * n))%Q.
Proof.
  rewrite Qeq_bool_iff. unfold float_mod. split.
  - intros Hx. exists (Qfloor (x / 2)). rewrite inject_Z_mult.
    change (inject_Z 2) with 2%Q. Lqa.lra.
  - intros [n Hn]. rewrite inject_Z_mult in Hn. change (inject_Z 2) with 2%Q in Hn.
    assert (x / 2 == inject_Z n)%Q as Hhalf by (rewrite Hn; field).
    rewrite Hhalf, Qfloor_Z. Lqa.lra.
Qed.

(** The test of the source turns down exactly the rejected sizes. *)
Lemma bad_ksize_rejected k : bad_ksize k = true <-> rejected_axis k.
Proof.
  destruct k as [n|x]; cbn [rejected_axis].
  - rewrite bad_ksize_spec. by destruct (positive_odd n).
  - cbn [bad_ksize]. rewrite orb_true_iff, float_mod_2_zero, negb_true_iff.
    rewrite <- not_true_iff_false, Qle_bool_iff.
    split.
    + intros [?|?]; [by right|left]. by apply Qnot_le_lt.
    + intros [?|?]; [right|by left]. by apply Qlt_not_le.
Qed.


(** C6.  On valid kernel sizes and with [sigma] omitted, [gaussian_blur]
    blurs with, on each axis, the sigma [0.15 * ksize + 0.35] of that
    axis's kernel size: it does what the call with these sigmas spelled out
    does. *)
Theorem gaussian_blur_default_sigma img kernel_size kx ky calls :
  kernel_axes kernel_size = [PyInt kx; PyInt ky] ->
  positive_odd kx = true -> positive_odd ky = true ->
  let sigma_x := ((15 # 100) * inject_Z kx + (35 # 100))%Q in
  let sigma_y := ((15 # 100) * inject_Z ky + (35 # 100))%Q in
  gaussian_blur img kernel_size SigmaNone calls =
    blur_dispatch img [PyInt kx; PyInt ky] [sigma_x; sigma_y] calls /\
  gaussian_blur img kernel_size SigmaNone calls =
    gaussian_blur img kernel_size (SigmaSeq [sigma_x; sigma_y]) calls.
Proof.
  intros Hax Hx Hy sigma_x sigma_y.
  assert (existsb bad_ksize [PyInt kx; PyInt ky] = false) as Hbad.
  { cbn [existsb]. by rewrite !bad_ksize_spec, Hx, Hy. }
  assert (0 < kx /\ 0 < ky) as [Hkx Hky].
  { unfold positive_odd in Hx, Hy.
    apply andb_true_iff in Hx as [?%Z.ltb_lt _], Hy as [?%Z.ltb_lt _]. done. }
  assert (existsb (fun s => Qle_bool s 0) [sigma_x; sigma_y] = false) as Hpos.
  { subst sigma_x sigma_y. rewrite <- !default_sigma_eq. cbn [existsb].
    rewrite !default_sigma_positive by done. reflexivity. }
  assert (gaussian_blur img kernel_size (SigmaSeq [sigma_x; sigma_y]) calls =
          blur_dispatch img [PyInt kx; PyInt ky] [sigma_x; sigma_y] calls) as Hexplicit.
  { unfold gaussian_blur, mbind, Eff_bind, mret, Eff_ret.
    destruct kernel_size as [k|ks|]; cbn in Hax; simplify_eq;
      cbn [length Nat.eqb negb]; rewrite Hbad; cbn [length Nat.eqb negb].
      all: rewrite Hpos; reflexivity. }
  rewrite Hexplicit.
  enough (gaussian_blur img kernel_size SigmaNone calls =
          blur_dispatch img [PyInt kx; PyInt ky] [sigma_x; sigma_y] calls) by done.
  unfold gaussian_blur, mbind, Eff_bind, mret, Eff_ret.
  destruct kernel_size as [k|ks|]; cbn in Hax; simplify_eq;
    cbn [length Nat.eqb negb]; rewrite Hbad;
    cbn [fmap list_fmap length Nat.eqb negb]; rewrite !default_sigma_eq;
    subst sigma_x sigma_y; rewrite Hpos; reflexivity.
Qed.

(** C7.  When the kernel size of some axis is an integer that is not
    positive and odd, or a float that is negative or an even whole number,
    [gaussian_blur] raises a [ValueError], and it does so before any pixel
    work: no conversion and no convolution has been called.  These are the
    sizes with [ksize % 2 == 0 or ksize < 0]; the type of an element is not
    looked at. *)
Theorem gaussian_blur_rejects_bad_kernel img kernel_size sigma calls :
  Exists rejected_axis (kernel_axes kernel_size) ->
  exists msg,
    gaussian_blur img kernel_size sigma calls = (Raise (ValueError msg), calls).
Proof.
  intros Hbad.
  assert (existsb bad_ksize (kernel_axes kernel_size) = true) as Hex.
  { apply existsb_exists. apply Exists_exists in Hbad as (k & Hk & Hrej).
    exists k. split; [by apply list_elem_of_In|]. by apply bad_ksize_rejected. }
  unfold gaussian_blur.
  destruct kernel_size as [k|ks|]; cbn [kernel_axes] in *.
  - unfold mbind, Eff_bind, mret, Eff_ret, raise. cbn [length Nat.eqb negb].
    rewrite Hex. eauto.
  - unfold mbind, Eff_bind, mret, Eff_ret, raise.
    destruct (negb (length ks =? 2)%nat); [eauto|]. rewrite Hex. eauto.
  - by apply Exists_nil in Hbad.
Qed.
End blur_props.

Lemma gaussian_blur_default_sigma_witness :
  kernel_axes (KernelSeq [PyInt 3; PyInt 5]) = [PyInt 3; PyInt 5] /\
  positive_odd 3 = true /\ positive_odd 5 = true /\
  @gaussian_blur toy_backends (img23 PIL) (KernelSeq [PyInt 3; PyInt 5]) SigmaNone [] =
    @blur_dispatch toy_backends (img23 PIL) [PyInt 3; PyInt 5]
      [(15 # 100) * inject_Z 3 + (35 # 100); (15 # 100) * inject_Z 5 + (35 # 100)]%Q [].
Proof.
  assert (kernel_axes (KernelSeq [PyInt 3; PyInt 5]) = [PyInt 3; PyInt 5]) as H1
    by reflexivity.
  assert (positive_odd 3 = true) as H2 by reflexivity.
  assert (positive_odd 5 = true) as H3 by reflexivity.
  repeat (split; [assumption|]).
  exact (proj1 (@gaussian_blur_default_sigma toy_backends (img23 PIL)
                  (KernelSeq [PyInt 3; PyInt 5]) 3 5 [] H1 H2 H3)).
Defined.

Lemma gaussian_blur_rejects_bad_kernel_witness :
  Exists rejected_axis (kernel_axes (KernelSeq [PyInt 3; PyFloat (-3 # 2)])) /\
  exists msg,
    @gaussian_blur toy_backends (img23 PIL) (KernelSeq [PyInt 3; PyFloat (-3 # 2)])
      SigmaNone [] = (Raise (ValueError msg), []).
Proof.
  assert (Exists rejected_axis (kernel_axes (KernelSeq [PyInt 3; PyFloat (-3 # 2)])))
    as H1 by (apply Exists_cons_tl, Exists_cons_hd; left; reflexivity).
  split; [assumption|].
  exact (@gaussian_blur_rejects_bad_kernel toy_backends (img23 PIL)
           (KernelSeq [PyInt 3; PyFloat (-3 # 2)]) SigmaNone [] H1).
Defined.

(** Counterexample to C7 as the specification words it: a kernel size of
    2.5 is not a positive odd integer, and yet [gaussian_blur] raises no
    validation error on [[2.5, 3]].  On a tensor image the blur of the array backend is
    called, whatever the backend then does, and with a backend that blurs
    the call returns an image. *)
Lemma gaussian_blur_accepts_fractional_kernel :
  let kernel_size := KernelSeq [PyFloat (5 # 2); PyInt 3] in
  let blur :=
    Call_gaussian_blur (img23 Tensor) [PyFloat (5 # 2); PyInt 3]
      [default_sigma (PyFloat (5 # 2)); default_sigma (PyInt 3)] in
  Exists (fun k => positive_odd_integer k = false) (kernel_axes kernel_size) /\
  (forall B : Backends,
     (@gaussian_blur B (img23 Tensor) kernel_size SigmaNone []).2 = [blur]) /\
  @gaussian_blur toy_backends (img23 Tensor) kernel_size SigmaNone [] =
    (Ok (img23 Tensor), [blur]) /\
  ~ (forall (B : Backends) img ks sigma calls,
       Exists (fun k => positive_odd_integer k = false) (kernel_axes ks) ->
       exists msg,
         @gaussian_blur B img ks sigma calls = (Raise (ValueError msg), calls)).
Proof.
  intros kernel_size blur.
  assert (Exists (fun k => positive_odd_integer k = false) (kernel_axes kernel_size))
    as Hbad by (apply Exists_cons_hd; reflexivity).
  split; [exact Hbad|]. split; [|split].
  - intros B. unfold gaussian_blur, blur_dispatch, call, mbind, Eff_bind, mret, Eff_ret.
    cbn. by destruct (F_t_gaussian_blur _ _ _).
  - reflexivity.
  - intros Hclaim.
    destruct (Hclaim toy_backends (img23 Tensor) kernel_size SigmaNone [] Hbad)
      as [msg Hmsg].
    discriminate Hmsg.
Qed.

Section normalize_props.
Context `{Backends}.
Implicit Types (σ : gmap loc flow_tensor) (l : loc) (t : flow_tensor).

Lemma fresh_loc_unused σ : σ !! fresh (dom σ) = None.
Proof. apply not_elem_of_dom, is_fresh. Qed.

(** An in-place method writes at its receiver only, returns its receiver,
    and frees nothing. *)
Lemma in_place_inv op l arg σ r σ' :
  in_place op l arg σ = (r, σ') ->
  (forall l0, l0 <> l -> σ' !! l0 = σ !! l0) /\
  (forall l1, r = Ok l1 -> l1 = l) /\
  (forall l0, is_Some (σ !! l0) -> is_Some (σ' !! l0)).
Proof.
  unfold in_place. intros Hrun.
  destruct (σ !! l) as [t|] eqn:Hl; [|by simplify_eq].
  destruct (op t arg) as [t'|]; simplify_eq; [|done].
  split; [|split].
  - intros l0 Hne. by rewrite lookup_insert_ne.
  - by intros l1 [= <-].
  - intros l0 Hl0. destruct (decide (l = l0)) as [->|Hne].
    + rewrite lookup_insert_eq. eauto.
    + by rewrite lookup_insert_ne.
Qed.

Lemma in_place_run op l arg σ t t' :
  σ !! l = Some t -> op t arg = Ok t' ->
  in_place op l arg σ = (Ok l, <[l := t']> σ).
Proof. intros Hl Hop. unfold in_place. by rewrite Hl, Hop. Qed.

(** C9.  [normalize] with [inplace=False] leaves the input tensor, and
    every tensor of the store, as it was: on success the result is a tensor
    that did not exist before, and on the error paths (wrong dtype, fewer
    than three dimensions, a zero in [std]) the input is untouched.  With
    [inplace=True] the input itself is overwritten and returned. *)
Theorem normalize_keeps_input l t mean std σ :
  σ !! l = Some t ->
  let out := normalize (ArgTensor l) mean std false σ in
  (* the input, and every other tensor of the store, is as it was *)
  out.2 !! l = Some t /\
  (forall l0, is_Some (σ !! l0) -> out.2 !! l0 = σ !! l0) /\
  (* the result is a tensor that did not exist before *)
  (forall r, out.1 = Ok r ->
     exists l', r = RetTensor l' /\ l' <> l /\ σ !! l' = None /\ is_Some (out.2 !! l')) /\
  (* the checks made before the copy leave the store as it was *)
  (t_dtype t <> float32 -> exists msg, out = (Raise (TypeError msg), σ)) /\
  (t_dtype t = float32 -> (length (t_shape t) < 3)%nat ->
     exists msg, out = (Raise (ValueError msg), σ)) /\
  (* a zero in std is found after the copy, which is all that changes *)
  (t_dtype t = float32 -> (3 <= length (t_shape t))%nat ->
   existsb (fun s => Qeq_bool s 0) std = true ->
     exists msg, out = (Raise (ValueError msg), <[fresh (dom σ) := t]> σ)) /\
  (* in place, the input itself is overwritten and returned *)
  (forall t1 t2,
     t_dtype t = float32 -> (3 <= length (t_shape t))%nat ->
     existsb (fun s => Qeq_bool s 0) std = false ->
     tensor_sub t mean = Ok t1 -> tensor_div t1 std = Ok t2 ->
     normalize (ArgTensor l) mean std true σ = (Ok (RetTensor l), <[l := t2]> σ)).
Proof.
  intros Hl out.
  pose proof (fresh_loc_unused σ) as Hfresh.
  set (l' := fresh (dom σ)) in *.
  assert (l' <> l) as Hne by congruence.
  set (σ1 := <[l' := t]> σ).
  assert (forall l0, is_Some (σ !! l0) -> l0 <> l') as Hold.
  { intros l0 [t0 Ht0] ->. congruence. }
  (* the run of the out-of-place call, check by check *)
  assert (out =
    if negb (bool_decide (t_dtype t = float32)) then
      (Raise (TypeError "Input tensor should be a float tensor. Got {}."), σ)
    else if (length (t_shape t) <? 3)%nat then
      (Raise (ValueError
        "Expected tensor to be a tensor image of size (..., C, H, W). Got tensor.size() = {}."), σ)
    else if existsb (fun s => Qeq_bool s 0) std then
      (Raise (ValueError
        "std evaluated to zero after conversion to {}, leading to division by zero."), σ1)
    else
      match in_place tensor_sub l' mean σ1 with
      | (Ok l1, σ2) =>
          match in_place tensor_div l1 std σ2 with
          | (Ok l2, σ3) => (Ok (RetTensor l2), σ3)
          | (Raise e, σ3) => (Raise e, σ3)
          end
      | (Raise e, σ2) => (Raise e, σ2)
      end) as Hrun.
  { subst out. unfold normalize, mbind, Eff_bind, mret, Eff_ret, raise, deref, clone.
    rewrite Hl. cbn [negb].
    destruct (negb (bool_decide (t_dtype t = float32))); [done|].
    destruct (length (t_shape t) <? 3)%nat; [done|].
    rewrite Hl. fold l'. fold σ1.
    destruct (existsb _ std); [done|]. reflexivity. }
  assert ((forall l0, l0 <> l' -> out.2 !! l0 = σ !! l0) /\
          (forall r, out.1 = Ok r -> r = RetTensor l' /\ is_Some (out.2 !! l')))
    as [Hframe Hret].
  { rewrite Hrun.
    assert (forall l0, l0 <> l' -> σ1 !! l0 = σ !! l0) as Hσ1.
    { intros l0 Hl0. subst σ1. by rewrite lookup_insert_ne. }
    assert (is_Some (σ1 !! l')) as Hl'.
    { subst σ1. rewrite lookup_insert_eq. eauto. }
    destruct (negb _); [by split|].
    destruct (_ <? _)%nat; [by split|].
    destruct (existsb _ std); [by split|].
    destruct (in_place tensor_sub l' mean σ1) as [r1 σ2] eqn:E1.
    apply in_place_inv in E1 as (F1 & R1 & A1).
    destruct r1 as [l1|e].
    2:{ split; [|done]. intros l0 Hl0. cbn. by rewrite F1, Hσ1. }
    rewrite (R1 l1 eq_refl).
    destruct (in_place tensor_div l' std σ2) as [r2 σ3] eqn:E2.
    apply in_place_inv in E2 as (F2 & R2 & A2).
    destruct r2 as [l2|e]; cbn.
    2:{ split; [|done]. intros l0 Hl0. by rewrite F2, F1, Hσ1. }
    rewrite (R2 l2 eq_refl). split.
    - intros l0 Hl0. by rewrite F2, F1, Hσ1.
    - intros r [= <-]. split; [done|]. by apply A2, A1. }
  split; [by rewrite Hframe|].
  split; [intros l0 Hl0; by rewrite Hframe by (by apply Hold)|].
  split.
  { intros r Hr. destruct (Hret r Hr) as [-> Hsome]. by exists l'. }
  split.
  { intros Hdt. rewrite Hrun. rewrite bool_decide_false by done. cbn. eauto. }
  split.
  { intros Hdt Hnd. rewrite Hrun. rewrite bool_decide_true by done. cbn [negb].
    apply Nat.ltb_lt in Hnd. rewrite Hnd. eauto. }
  split.
  { intros Hdt Hnd Hstd. rewrite Hrun. rewrite bool_decide_true by done. cbn [negb].
    apply Nat.ltb_ge in Hnd. rewrite Hnd, Hstd. eauto. }
  intros t1 t2 Hdt Hnd Hstd Hsub Hdiv.
  unfold normalize, mbind, Eff_bind, mret, Eff_ret, raise, deref.
  rewrite Hl. rewrite bool_decide_true by done. cbn [negb].
  apply Nat.ltb_ge in Hnd. rewrite Hnd, Hstd.
  rewrite (in_place_run tensor_sub l mean σ t t1) by done.
  rewrite (in_place_run tensor_div l std _ t1 t2) by (done || apply lookup_insert_eq).
  by rewrite insert_insert_eq.
Qed.
End normalize_props.

Lemma normalize_keeps_input_witness :
  store1 !! 1%positive = Some t212 /\
  (@normalize toy_backends (ArgTensor 1%positive) [1 # 2; 1 # 2]%Q [1 # 2; 1 # 4]%Q
     false store1).2 !! 1%positive = Some t212.
Proof.
  assert (store1 !! 1%positive = Some t212) as H1 by reflexivity.
  split; [assumption|].
  exact (proj1 (@normalize_keeps_input toy_backends 1%positive t212
                  [1 # 2; 1 # 2]%Q [1 # 2; 1 # 4]%Q store1 H1)).
Defined.

(** ** The module at work *)

Example py_round_ties :
  (py_round (1 # 2), py_round (3 # 2), py_round (5 # 2), py_round (-1 # 2), py_round (7 # 4))
  = (0, 2, 2, 0, 2).
Proof. reflexivity. Qed.

Example center_crop_larger :
  center_crop (img23 Tensor) (SizeSeq [4; 4]) =
  Ok (mkImage Tensor 4 4 [[0; 0; 0; 0]; [1; 2; 3; 0]; [4; 5; 6; 0]; [0; 0; 0; 0]]).
Proof. reflexivity. Qed.

Example center_crop_wider :
  center_crop (img23 PIL) (SizeSeq [1; 5]) = Ok (mkImage PIL 5 1 [[0; 1; 2; 3; 0]]).
Proof. reflexivity. Qed.

(** The scenario of the spec: a 10 by 10 zero image padded by 2 with fill 5 is
    14 by 14, and its centre crop is the image again. *)
Example pad_then_center_crop :
  let zeros := build PIL 10 10 (fun _ _ => 0) in
  (padded ← pad zeros [2; 2; 2; 2] 5;
   back ← center_crop padded (SizeSeq [10; 10]);
   mret (width padded, height padded, pixel padded 1 1, pixel padded 2 2, back))
  = Ok (14, 14, Some 5, Some 0, zeros).
Proof. vm_compute. reflexivity. Qed.

Example five_crop_larger :
  five_crop (img23 Tensor) (SizeSeq [3; 3]) = Raise (ValueError too_big_msg).
Proof. reflexivity. Qed.

Example ten_crop_order :
  match ten_crop (img23 Tensor) (SizeSeq [1; 2]) false with
  | Ok imgs => map rows imgs
  | Raise _ => []
  end =
  [ [[1; 2]]; [[2; 3]]; [[4; 5]]; [[5; 6]]; [[1; 2]];
    [[3; 2]]; [[2; 1]]; [[6; 5]]; [[5; 4]]; [[3; 2]] ].
Proof. reflexivity. Qed.

Example resize_legacy_code :
  @resize toy_backends (img23 PIL) (SizeNum 4) (AsInt 1) [] =
  ((@resize toy_backends (img23 PIL) (SizeNum 4) (AsMode LANCZOS) []).1, [int_warning]).
Proof. reflexivity. Qed.

Example resize_unknown_code :
  (@resize toy_backends (img23 PIL) (SizeNum 4) (AsInt 7) []).1 = Raise (KeyError 7).
Proof. reflexivity. Qed.

Example gaussian_blur_calls :
  (@gaussian_blur toy_backends (img23 Tensor) (KernelInt 3) SigmaNone []).2 =
  [Call_gaussian_blur (img23 Tensor) [PyInt 3; PyInt 3]
     [default_sigma (PyInt 3); default_sigma (PyInt 3)]].
Proof. reflexivity. Qed.

Example normalize_copy :
  let out := @normalize toy_backends (ArgTensor 1%positive) [1 # 2; 1 # 2]%Q
               [1 # 2; 1 # 4]%Q false store1 in
  out.1 = Ok (RetTensor 2%positive) /\
  out.2 !! 1%positive = Some t212 /\
  t_data <$> out.2 !! 2%positive = Some [2 # 2; 6 # 2; 20 # 2; 28 # 2]%Q.
Proof. vm_compute. auto. Qed.

Example normalize_in_place :
  let out := @normalize toy_backends (ArgTensor 1%positive) [1 # 2; 1 # 2]%Q
               [1 # 2; 1 # 4]%Q true store1 in
  out.1 = Ok (RetTensor 1%positive) /\
  t_data <$> out.2 !! 1%positive = Some [2 # 2; 6 # 2; 20 # 2; 28 # 2]%Q.
Proof. vm_compute. auto. Qed.

(** * Further properties *)

Section interpolation_props.
Context `{Backends}.
Implicit Types (img : Image) (ws : list string).

Lemma good_code_spec i :
  0 <= i <= 5 ->
  exists m, _interpolation_modes_from_int i = Ok m /\ pil_modes_mapping m = i.
Proof.
  intros Hin.
  assert (i = 0 \/ i = 1 \/ i = 2 \/ i = 3 \/ i = 4 \/ i = 5) as Hi by lia.
  destruct Hi as [->|[->|[->|[->|[->| ->]]]]]; eexists; split; reflexivity.
Qed.

Lemma bad_code_raises i :
  i < 0 \/ 5 < i -> _interpolation_modes_from_int i = Raise (KeyError i).
Proof.
  intros Hi. destruct i as [|p|p]; [lia | | reflexivity].
  do 4 (try destruct p as [p|p|]); cbn; reflexivity || lia.
Qed.

(** X1.  The two tables of integer codes are inverse to each other, and a
    code outside 0..5 is a [KeyError]. *)
Theorem interpolation_codes_round_trip :
  (forall m, _interpolation_modes_from_int (pil_modes_mapping m) = Ok m) /\
  (forall i,
     match _interpolation_modes_from_int i with
     | Ok m => pil_modes_mapping m = i /\ 0 <= i <= 5
     | Raise e => e = KeyError i /\ (i < 0 \/ 5 < i)
     end).
Proof.
  split; [by intros []|].
  intros i. destruct (decide (0 <= i <= 5)) as [Hin|Hout].
  - destruct (good_code_spec i Hin) as (m & -> & Hm). done.
  - rewrite bad_code_raises by lia. split; [done | lia].
Qed.

Lemma code_of_mode i m :
  _interpolation_modes_from_int i = Ok m -> pil_modes_mapping m = i.
Proof.
  intros Hm. destruct (decide (0 <= i <= 5)) as [Hin|Hout].
  - destruct (good_code_spec i Hin) as (m' & Hm' & Hi). congruence.
  - rewrite bad_code_raises in Hm by lia. done.
Qed.

(** X2.  [resize] with an integer outside 0..5 warns and then raises
    [KeyError]; with an interpolation that is neither an integer nor a member
    of the enumeration it raises [TypeError] without a warning. *)
Theorem resize_rejects_bad_interpolation img size ws :
  (forall i, i < 0 \/ 5 < i ->
     resize img size (AsInt i) ws = (Raise (KeyError i), ws ++ [int_warning])) /\
  resize img size AsOther ws = (Raise interpolation_type_error, ws).
Proof.
  split; [|reflexivity].
  intros i Hi. unfold resize, mbind, Eff_bind, mret, Eff_ret, lift, warn. cbn.
  by rewrite bad_code_raises.
Qed.

(** X3.  What [resize] hands to the backends: a PIL image goes to
    [F_pil.resize] with the integer code of the mode, which for a legacy
    integer argument is that integer itself; a tensor goes to [F_t.resize]
    with the name of the mode.  The result is the backend's. *)
Theorem resize_dispatch img size ws i m :
  _interpolation_modes_from_int i = Ok m ->
  (is_tensor img = false ->
     resize img size (AsInt i) ws = (F_pil_resize img size i, ws ++ [int_warning]) /\
     resize img size (AsMode m) ws = (F_pil_resize img size i, ws)) /\
  (is_tensor img = true ->
     resize img size (AsInt i) ws = (F_t_resize img size (value m), ws ++ [int_warning]) /\
     resize img size (AsMode m) ws = (F_t_resize img size (value m), ws)).
Proof.
  intros Hm.
  pose proof (code_of_mode i m Hm) as Hi.
  split; intros Ht; unfold resize, mbind, Eff_bind, mret, Eff_ret, lift, warn; cbn;
    rewrite Hm, Ht; cbn; by rewrite ?Hi.
Qed.
End interpolation_props.

Lemma resize_rejects_bad_interpolation_witness :
  (7 < 0 \/ 5 < 7) /\
  @resize toy_backends (img23 PIL) (SizeNum 4) (AsInt 7) [] =
    (Raise (KeyError 7), [int_warning]).
Proof.
  assert (7 < 0 \/ 5 < 7) as H1 by (right; lia).
  split; [assumption|].
  exact (proj1 (@resize_rejects_bad_interpolation toy_backends (img23 PIL) (SizeNum 4) [])
           7 H1).
Defined.

Lemma resize_dispatch_witness :
  _interpolation_modes_from_int 3 = Ok BICUBIC /\ is_tensor (img23 PIL) = false /\
  @resize toy_backends (img23 PIL) (SizeNum 4) (AsInt 3) [] =
    (@F_pil_resize toy_backends (img23 PIL) (SizeNum 4) 3, [] ++ [int_warning]).
Proof.
  assert (_interpolation_modes_from_int 3 = Ok BICUBIC) as H1 by reflexivity.
  assert (is_tensor (img23 PIL) = false) as H2 by reflexivity.
  repeat (split; [assumption|]).
  exact (proj1 (proj1 (@resize_dispatch toy_backends (img23 PIL) (SizeNum 4) [] 3 BICUBIC H1)
                  H2)).
Defined.

Section rotate_props.
Context `{Backends}.
Implicit Types (img : Image) (ws : list string).

Ltac run_rotate :=
  unfold rotate, mbind, Eff_bind, mret, Eff_ret, raise, lift, warn; cbn.

(** X4.  When [resample] is given, [rotate] does not look at [interpolation]:
    any two values of it, well typed or not, give the same outcome, and the
    only warning is the one about [resample]. *)
Theorem rotate_resample_overrides img angle interpolation interpolation' expand
    center fill r ws :
  rotate img angle interpolation expand center fill (Some r) ws =
  rotate img angle interpolation' expand center fill (Some r) ws /\
  (rotate img angle interpolation expand center fill (Some r) ws).2 =
  ws ++ [resample_warning].
Proof.
  split.
  - run_rotate. by destruct (_interpolation_modes_from_int r).
  - run_rotate.
    destruct (_interpolation_modes_from_int r); cbn; [|done].
    destruct angle; cbn; [|done].
    destruct center; cbn; try done;
      destruct (negb (is_tensor img)); cbn; try done;
      by case_match.
Qed.

(** X5.  For a PIL image and well-typed arguments [rotate] returns what
    [F_pil.rotate] returns on the angle as given, the integer code of the
    mode, and the centre as given, whatever its length; no matrix is built. *)
Theorem rotate_pil_dispatch img x interpolation expand center fill resample m ws :
  is_tensor img = false ->
  resolved_mode interpolation resample = Some m ->
  center <> CenterOther ->
  rotate img (AngleNum x) interpolation expand center fill resample ws =
  (F_pil_rotate img x (pil_modes_mapping m) expand (center_option center) fill,
   ws ++ legacy_warnings interpolation resample).
Proof.
  intros Ht Hm Hc. run_rotate. unfold resolved_mode in Hm.
  destruct resample as [r|]; cbn.
  - destruct (_interpolation_modes_from_int r) as [m'|]; [|done].
    simplify_eq. cbn. destruct center; try done; cbn; by rewrite Ht.
  - destruct interpolation as [i|m'|]; [| |done]; cbn.
    + destruct (_interpolation_modes_from_int i) as [m'|]; [|done].
      simplify_eq. cbn. destruct center; try done; cbn; by rewrite Ht.
    + simplify_eq. rewrite app_nil_r.
      destruct center; try done; cbn; by rewrite Ht.
Qed.

(** X6.  On either representation [rotate] checks its arguments in the
    order of the source: once the mode is settled, an [angle] that is not a
    number is a [TypeError], then a [center] that is not a sequence; an
    [interpolation] of another type is a [TypeError] only after both, so
    that together with a bad [angle] the error is that of the angle, together
    with a bad [center] that of the centre, and its own only when both are
    well typed. *)
Theorem rotate_rejects_bad_arguments img x interpolation expand center fill resample ws :
  (forall m, resolved_mode interpolation resample = Some m ->
     (rotate img AngleOther interpolation expand center fill resample ws).1 =
       Raise (TypeError "Argument angle should be int or float") /\
     (rotate img (AngleNum x) interpolation expand CenterOther fill resample ws).1 =
       Raise (TypeError "Argument center should be a sequence")) /\
  (rotate img AngleOther AsOther expand center fill None ws).1 =
    Raise (TypeError "Argument angle should be int or float") /\
  (rotate img (AngleNum x) AsOther expand CenterOther fill None ws).1 =
    Raise (TypeError "Argument center should be a sequence") /\
  (center <> CenterOther ->
   (rotate img (AngleNum x) AsOther expand center fill None ws).1 =
     Raise interpolation_type_error).
Proof.
  split; [|split; [|split]].
  - intros m Hm. unfold resolved_mode in Hm. run_rotate.
    destruct resample as [r|]; cbn.
    + destruct (_interpolation_modes_from_int r); [|done]. by cbn.
    + destruct interpolation as [i|m'|]; [| |done]; cbn; [|done].
      destruct (_interpolation_modes_from_int i); [|done]. by cbn.
  - reflexivity.
  - reflexivity.
  - intros Hc. run_rotate. by destruct center.
Qed.
End rotate_props.

Lemma rotate_pil_dispatch_witness :
  is_tensor (img23 PIL) = false /\
  resolved_mode (AsInt 3) None = Some BICUBIC /\
  CenterSeq [1] <> CenterOther /\
  @rotate toy_backends (img23 PIL) (AngleNum 90) (AsInt 3) true (CenterSeq [1]) None None []
  = (@F_pil_rotate toy_backends (img23 PIL) 90%R 3 true (Some [1]) None, [int_warning]).
Proof.
  assert (is_tensor (img23 PIL) = false) as H1 by reflexivity.
  assert (resolved_mode (AsInt 3) None = Some BICUBIC) as H2 by reflexivity.
  assert (CenterSeq [1] <> CenterOther) as H3 by discriminate.
  repeat (split; [assumption|]).
  exact (@rotate_pil_dispatch toy_backends (img23 PIL) 90%R (AsInt 3) true (CenterSeq [1])
           None None BICUBIC [] H1 H2 H3).
Defined.

Lemma rotate_rejects_bad_arguments_witness :
  (resolved_mode (AsMode NEAREST) (Some 2) = Some BILINEAR /\
   (@rotate toy_backends (img23 Tensor) AngleOther (AsMode NEAREST) false CenterNone None
      (Some 2) []).1 = Raise (TypeError "Argument angle should be int or float")) /\
  (@rotate toy_backends (img23 Tensor) (AngleNum 0) AsOther false CenterOther None
     None []).1 = Raise (TypeError "Argument center should be a sequence") /\
  (CenterSeq [1; 1] <> CenterOther /\
   (@rotate toy_backends (img23 Tensor) (AngleNum 0) AsOther false (CenterSeq [1; 1]) None
      None []).1 = Raise interpolation_type_error).
Proof.
  assert (resolved_mode (AsMode NEAREST) (Some 2) = Some BILINEAR) as H1 by reflexivity.
  assert (CenterSeq [1; 1] <> CenterOther) as H2 by discriminate.
  split; [|split].
  - split; [assumption|].
    exact (proj1 (proj1 (@rotate_rejects_bad_arguments toy_backends (img23 Tensor) 0%R
                           (AsMode NEAREST) false CenterNone None (Some 2) [])
                    BILINEAR H1)).
  - exact (proj1 (proj2 (proj2 (@rotate_rejects_bad_arguments toy_backends
                                  (img23 Tensor) 0%R AsOther false CenterNone None
                                  None [])))).
  - split; [assumption|].
    exact (proj2 (proj2 (proj2 (@rotate_rejects_bad_arguments toy_backends
                                  (img23 Tensor) 0%R AsOther false (CenterSeq [1; 1])
                                  None None []))) H2).
Defined.

Section blur_more_props.
Context `{Backends}.
Implicit Types (img : Image) (calls : list pixel_work).

Lemma valid_kernel_passes kx ky :
  bad_ksize kx = false -> bad_ksize ky = false ->
  existsb bad_ksize [kx; ky] = false.
Proof. intros Hx Hy. cbn [existsb]. by rewrite Hx, Hy. Qed.

(** [gaussian_blur] past the checks on the kernel size. *)
Lemma gaussian_blur_past_kernel img kernel_size sigma kx ky calls :
  kernel_axes kernel_size = [kx; ky] ->
  bad_ksize kx = false -> bad_ksize ky = false ->
  gaussian_blur img kernel_size sigma calls =
  match sigma_axes sigma [kx; ky] with
  | None =>
      (Raise (TypeError "sigma should be either float or sequence of floats. Got {}"),
       calls)
  | Some ss =>
      if negb (length ss =? 2)%nat then
        (Raise (ValueError "If sigma is a sequence, its length should be 2. Got {}"), calls)
      else if existsb (fun s => Qle_bool s 0) ss then
        (Raise (ValueError "sigma should have positive values. Got {}"), calls)
      else blur_dispatch img [kx; ky] ss calls
  end.
Proof.
  intros Hax Hx Hy. pose proof (valid_kernel_passes kx ky Hx Hy) as Hbad.
  unfold gaussian_blur, mbind, Eff_bind, mret, Eff_ret, raise.
  destruct kernel_size as [k|ks|]; cbn in Hax; simplify_eq;
    cbn [length Nat.eqb negb]; rewrite Hbad;
    destruct sigma as [|s|[|s [|s' ss]]|]; cbn [sigma_axes]; try reflexivity;
    repeat match goal with |- context [if ?b then _ else _] => destruct b end;
    reflexivity.
Qed.

(** X7.  Past the checks on the kernel size, that is for two sizes, integers
    or not, that the test [ksize % 2 == 0 or ksize < 0] lets through,
    [gaussian_blur] reaches the pixel work exactly when [sigma] has, or is
    broadcast to, two positive values; a [sigma] of another type is a
    [TypeError], another length or a value [<= 0] a [ValueError], and then no
    backend has been called. *)
Theorem gaussian_blur_checks_sigma img kernel_size sigma kx ky calls :
  kernel_axes kernel_size = [kx; ky] ->
  bad_ksize kx = false -> bad_ksize ky = false ->
  match sigma_axes sigma [kx; ky] with
  | None =>
      exists msg, gaussian_blur img kernel_size sigma calls = (Raise (TypeError msg), calls)
  | Some [sx; sy] =>
      if Qle_bool sx 0 || Qle_bool sy 0 then
        exists msg,
          gaussian_blur img kernel_size sigma calls = (Raise (ValueError msg), calls)
      else
        gaussian_blur img kernel_size sigma calls =
        blur_dispatch img [kx; ky] [sx; sy] calls
  | Some _ =>
      exists msg, gaussian_blur img kernel_size sigma calls = (Raise (ValueError msg), calls)
  end.
Proof.
  intros Hax Hx Hy. rewrite (gaussian_blur_past_kernel img kernel_size sigma kx ky) by done.
  destruct (sigma_axes sigma [kx; ky]) as [[|sx [|sy [|sz ss]]]|]; cbn; eauto.
  rewrite orb_false_r. destruct (Qle_bool sx 0 || Qle_bool sy 0); eauto.
Qed.

(** X9.  On arguments that pass the checks a tensor image costs one backend
    call, the blur of the image itself, whose outcome is returned.  A PIL image is converted
    first: if [to_tensor] raises nothing is blurred, if the blur raises
    nothing is converted back, and otherwise the outcome is that of
    [to_pil_image] on the blurred tensor. *)
Theorem gaussian_blur_calls_in_order img kernel_size sigma kx ky sx sy calls :
  kernel_axes kernel_size = [kx; ky] ->
  bad_ksize kx = false -> bad_ksize ky = false ->
  sigma_axes sigma [kx; ky] = Some [sx; sy] ->
  Qle_bool sx 0 = false -> Qle_bool sy 0 = false ->
  let blur t := Call_gaussian_blur t [kx; ky] [sx; sy] in
  gaussian_blur img kernel_size sigma calls =
  if is_tensor img then
    (F_t_gaussian_blur img [kx; ky] [sx; sy], calls ++ [blur img])
  else
    match to_tensor img with
    | Raise e => (Raise e, calls ++ [Call_to_tensor img])
    | Ok t_img =>
        match F_t_gaussian_blur t_img [kx; ky] [sx; sy] with
        | Raise e => (Raise e, calls ++ [Call_to_tensor img; blur t_img])
        | Ok output =>
            (to_pil_image output,
             calls ++ [Call_to_tensor img; blur t_img; Call_to_pil_image output])
        end
    end.
Proof.
  intros Hax Hx Hy Hs Hsx Hsy blur.
  rewrite (gaussian_blur_past_kernel img kernel_size sigma kx ky) by done.
  rewrite Hs. cbn [length Nat.eqb negb existsb]. rewrite Hsx, Hsy. cbn [orb].
  unfold blur_dispatch, mbind, Eff_bind, mret, Eff_ret, call.
  destruct (is_tensor img); cbn [negb].
  - by destruct (F_t_gaussian_blur img _ _).
  - destruct (to_tensor img) as [t_img|]; [|done].
    destruct (F_t_gaussian_blur t_img _ _) as [output|]; rewrite <- ?app_assoc; [|done].
    by destruct (to_pil_image output).
Qed.
End blur_more_props.

Lemma gaussian_blur_checks_sigma_witness :
  kernel_axes (KernelInt 3) = [PyInt 3; PyInt 3] /\ bad_ksize (PyInt 3) = false /\
  exists msg,
    @gaussian_blur toy_backends (img23 Tensor) (KernelInt 3) (SigmaSeq [1; 0]%Q) [] =
      (Raise (ValueError msg), []).
Proof.
  assert (kernel_axes (KernelInt 3) = [PyInt 3; PyInt 3]) as H1 by reflexivity.
  assert (bad_ksize (PyInt 3) = false) as H2 by reflexivity.
  repeat (split; [assumption|]).
  exact (@gaussian_blur_checks_sigma toy_backends (img23 Tensor) (KernelInt 3)
           (SigmaSeq [1; 0]%Q) (PyInt 3) (PyInt 3) [] H1 H2 H2).
Defined.

Lemma gaussian_blur_calls_in_order_witness :
  kernel_axes (KernelSeq [PyInt 3; PyFloat (7 # 2)]) = [PyInt 3; PyFloat (7 # 2)] /\
  bad_ksize (PyInt 3) = false /\ bad_ksize (PyFloat (7 # 2)) = false /\
  sigma_axes (SigmaNum 2) [PyInt 3; PyFloat (7 # 2)] = Some [2; 2]%Q /\
  Qle_bool 2 0 = false /\
  @gaussian_blur toy_backends (img23 Tensor) (KernelSeq [PyInt 3; PyFloat (7 # 2)])
    (SigmaNum 2) [] =
    (Ok (img23 Tensor),
     [Call_gaussian_blur (img23 Tensor) [PyInt 3; PyFloat (7 # 2)] [2; 2]%Q]).
Proof.
  assert (kernel_axes (KernelSeq [PyInt 3; PyFloat (7 # 2)]) =
          [PyInt 3; PyFloat (7 # 2)]) as H1 by reflexivity.
  assert (bad_ksize (PyInt 3) = false) as H2 by reflexivity.
  assert (bad_ksize (PyFloat (7 # 2)) = false) as H3 by reflexivity.
  assert (sigma_axes (SigmaNum 2) [PyInt 3; PyFloat (7 # 2)] = Some [2; 2]%Q) as H4
    by reflexivity.
  assert (Qle_bool 2 0 = false) as H5 by reflexivity.
  repeat (split; [assumption|]).
  exact (@gaussian_blur_calls_in_order toy_backends (img23 Tensor)
           (KernelSeq [PyInt 3; PyFloat (7 # 2)]) (SigmaNum 2)
           (PyInt 3) (PyFloat (7 # 2)) 2%Q 2%Q [] H1 H2 H3 H4 H5 H5).
Defined.

Section normalize_more_props.
Context `{Backends}.
Implicit Types (σ : gmap loc flow_tensor) (l : loc) (t : flow_tensor).

(** [normalize] on a tensor, up to the arithmetic. *)
Lemma normalize_past_checks l t mean std inplace σ :
  σ !! l = Some t -> t_dtype t = float32 -> (3 <= length (t_shape t))%nat ->
  existsb (fun s => Qeq_bool s 0) std = false ->
  normalize (ArgTensor l) mean std inplace σ =
  let l' := if inplace then l else fresh (dom σ) in
  let σ1 := if inplace then σ else <[l' := t]> σ in
  match tensor_sub t mean with
  | Raise e => (Raise e, σ1)
  | Ok t1 =>
      match tensor_div t1 std with
      | Raise e => (Raise e, <[l' := t1]> σ1)
      | Ok t2 => (Ok (RetTensor l'), <[l' := t2]> σ1)
      end
  end.
Proof.
  intros Hl Hdt Hnd Hstd.
  unfold normalize, mbind, Eff_bind, mret, Eff_ret, raise, deref, clone.
  rewrite Hl. rewrite bool_decide_true by done. cbn [negb].
  apply Nat.ltb_ge in Hnd. rewrite Hnd.
  destruct inplace; cbn [negb]; rewrite ?Hl, Hstd; unfold in_place.
  - rewrite Hl. destruct (tensor_sub t mean) as [t1|]; [|reflexivity].
    rewrite lookup_insert_eq.
    destruct (tensor_div t1 std); cbn; rewrite ?insert_insert_eq; reflexivity.
  - rewrite lookup_insert_eq. destruct (tensor_sub t mean) as [t1|]; [|reflexivity].
    rewrite lookup_insert_eq.
    destruct (tensor_div t1 std); cbn; rewrite ?insert_insert_eq; reflexivity.
Qed.

(** X10.  With [inplace=True] the checks still come first: a tensor of
    another dtype, of fewer than three dimensions, or a zero in [std] raises
    and leaves the store, the input included, exactly as it was. *)
Theorem normalize_inplace_checks_first l t mean std σ :
  σ !! l = Some t ->
  (t_dtype t <> float32 ->
     exists msg, normalize (ArgTensor l) mean std true σ = (Raise (TypeError msg), σ)) /\
  (t_dtype t = float32 -> (length (t_shape t) < 3)%nat ->
     exists msg, normalize (ArgTensor l) mean std true σ = (Raise (ValueError msg), σ)) /\
  (t_dtype t = float32 -> (3 <= length (t_shape t))%nat ->
   existsb (fun s => Qeq_bool s 0) std = true ->
     exists msg, normalize (ArgTensor l) mean std true σ = (Raise (ValueError msg), σ)).
Proof.
  intros Hl.
  unfold normalize, mbind, Eff_bind, mret, Eff_ret, raise, deref. rewrite Hl.
  split; [|split].
  - intros Hdt. rewrite bool_decide_false by done. cbn. eauto.
  - intros Hdt Hnd. rewrite bool_decide_true by done. cbn [negb].
    apply Nat.ltb_lt in Hnd. rewrite Hnd. eauto.
  - intros Hdt Hnd Hstd. rewrite bool_decide_true by done. cbn [negb].
    apply Nat.ltb_ge in Hnd. rewrite Hnd, Hstd. eauto.
Qed.

(** X11.  With [inplace=True] an error of the arithmetic is not undone: if
    the subtraction raises the input is as it was, but if the subtraction
    succeeds and the division raises, the input is left holding the
    subtracted values. *)
Theorem normalize_inplace_partial l t mean std σ :
  σ !! l = Some t -> t_dtype t = float32 -> (3 <= length (t_shape t))%nat ->
  existsb (fun s => Qeq_bool s 0) std = false ->
  (forall e, tensor_sub t mean = Raise e ->
     normalize (ArgTensor l) mean std true σ = (Raise e, σ)) /\
  (forall t1 e, tensor_sub t mean = Ok t1 -> tensor_div t1 std = Raise e ->
     normalize (ArgTensor l) mean std true σ = (Raise e, <[l := t1]> σ)).
Proof.
  intros Hl Hdt Hnd Hstd.
  rewrite (normalize_past_checks l t) by done. cbn zeta.
  split.
  - by intros e ->.
  - by intros t1 e -> ->.
Qed.

(** X12.  With [inplace=False] a successful call adds one tensor to the
    store, at a location that was free, holding the input minus [mean]
    divided by [std], and returns it; these are the values [inplace=True]
    writes into the input. *)
Theorem normalize_out_of_place_result l t mean std σ t1 t2 :
  σ !! l = Some t -> t_dtype t = float32 -> (3 <= length (t_shape t))%nat ->
  existsb (fun s => Qeq_bool s 0) std = false ->
  tensor_sub t mean = Ok t1 -> tensor_div t1 std = Ok t2 ->
  let l' := fresh (dom σ) in
  σ !! l' = None /\
  normalize (ArgTensor l) mean std false σ = (Ok (RetTensor l'), <[l' := t2]> σ) /\
  (normalize (ArgTensor l) mean std true σ).2 !! l = Some t2.
Proof.
  intros Hl Hdt Hnd Hstd Hsub Hdiv l'.
  split; [apply fresh_loc_unused|].
  rewrite !(normalize_past_checks l t) by done. cbn zeta.
  rewrite Hsub, Hdiv. split.
  - by rewrite insert_insert_eq.
  - cbn. apply lookup_insert_eq.
Qed.
End normalize_more_props.

Lemma normalize_inplace_checks_first_witness :
  store1 !! 1%positive = Some t212 /\ t_dtype t212 = float32 /\
  (3 <= length (t_shape t212))%nat /\
  existsb (fun s => Qeq_bool s 0) [1; 0]%Q = true /\
  exists msg,
    @normalize toy_backends (ArgTensor 1%positive) [1; 1]%Q [1; 0]%Q true store1 =
      (Raise (ValueError msg), store1).
Proof.
  assert (store1 !! 1%positive = Some t212) as H1 by reflexivity.
  assert (t_dtype t212 = float32) as H2 by reflexivity.
  assert (3 <= length (t_shape t212))%nat as H3 by (cbn; lia).
  assert (existsb (fun s => Qeq_bool s 0) [1; 0]%Q = true) as H4 by reflexivity.
  repeat (split; [assumption|]).
  exact (proj2 (proj2 (@normalize_inplace_checks_first toy_backends 1%positive t212
                         [1; 1]%Q [1; 0]%Q store1 H1)) H2 H3 H4).
Defined.

Lemma normalize_inplace_partial_witness :
  store1 !! 1%positive = Some t212 /\ t_dtype t212 = float32 /\
  (3 <= length (t_shape t212))%nat /\
  existsb (fun s => Qeq_bool s 0) [1; 1; 1]%Q = false /\
  exists t1 e,
    @tensor_sub toy_backends t212 [1; 1]%Q = Ok t1 /\
    @tensor_div toy_backends t1 [1; 1; 1]%Q = Raise e /\
    @normalize toy_backends (ArgTensor 1%positive) [1; 1]%Q [1; 1; 1]%Q true store1 =
      (Raise e, <[1%positive := t1]> store1).
Proof.
  assert (store1 !! 1%positive = Some t212) as H1 by reflexivity.
  assert (t_dtype t212 = float32) as H2 by reflexivity.
  assert (3 <= length (t_shape t212))%nat as H3 by (cbn; lia).
  assert (existsb (fun s => Qeq_bool s 0) [1; 1; 1]%Q = false) as H4 by reflexivity.
  repeat (split; [assumption|]).
  eexists _, _.
  assert (forall t1 e (Hs : @tensor_sub toy_backends t212 [1; 1]%Q = Ok t1)
            (Hd : @tensor_div toy_backends t1 [1; 1; 1]%Q = Raise e),
            @tensor_sub toy_backends t212 [1; 1]%Q = Ok t1 /\
            @tensor_div toy_backends t1 [1; 1; 1]%Q = Raise e /\
            @normalize toy_backends (ArgTensor 1%positive) [1; 1]%Q [1; 1; 1]%Q true store1 =
              (Raise e, <[1%positive := t1]> store1)) as Hall.
  { intros t1 e Hs Hd. repeat (split; [assumption|]).
    exact (proj2 (@normalize_inplace_partial toy_backends 1%positive t212 [1; 1]%Q
                    [1; 1; 1]%Q store1 H1 H2 H3 H4) t1 e Hs Hd). }
  apply Hall; reflexivity.
Defined.

Lemma normalize_out_of_place_result_witness :
  store1 !! 1%positive = Some t212 /\ t_dtype t212 = float32 /\
  (3 <= length (t_shape t212))%nat /\
  existsb (fun s => Qeq_bool s 0) [1; 2]%Q = false /\
  exists t1 t2,
    @tensor_sub toy_backends t212 [1; 1]%Q = Ok t1 /\
    @tensor_div toy_backends t1 [1; 2]%Q = Ok t2 /\
    @normalize toy_backends (ArgTensor 1%positive) [1; 1]%Q [1; 2]%Q false store1 =
      (Ok (RetTensor (fresh (dom store1))), <[fresh (dom store1) := t2]> store1).
Proof.
  assert (store1 !! 1%positive = Some t212) as H1 by reflexivity.
  assert (t_dtype t212 = float32) as H2 by reflexivity.
  assert (3 <= length (t_shape t212))%nat as H3 by (cbn; lia).
  assert (existsb (fun s => Qeq_bool s 0) [1; 2]%Q = false) as H4 by reflexivity.
  repeat (split; [assumption|]).
  eexists _, _.
  assert (forall t1 t2 (Hs : @tensor_sub toy_backends t212 [1; 1]%Q = Ok t1)
            (Hd : @tensor_div toy_backends t1 [1; 2]%Q = Ok t2),
            @tensor_sub toy_backends t212 [1; 1]%Q = Ok t1 /\
            @tensor_div toy_backends t1 [1; 2]%Q = Ok t2 /\
            @normalize toy_backends (ArgTensor 1%positive) [1; 1]%Q [1; 2]%Q false store1 =
              (Ok (RetTensor (fresh (dom store1))), <[fresh (dom store1) := t2]> store1))
    as Hall.
  { intros t1 t2 Hs Hd. repeat (split; [assumption|]).
    exact (proj1 (proj2 (@normalize_out_of_place_result toy_backends 1%positive t212
                           [1; 1]%Q [1; 2]%Q store1 t1 t2 H1 H2 H3 H4 Hs Hd))). }
  apply Hall; reflexivity.
Defined.

Section crop_more_props.
Implicit Types (img : Image) (size : size_arg).

(** [round(n / 2.0)] of a natural [n] splits it into two halves that differ
    by at most one. *)
Lemma py_round_half_centred n :
  0 <= n ->
  let k := py_round (inject_Z n / 2) in
  0 <= k <= n /\ -1 <= (n - k) - k <= 1.
Proof.
  intros Hn k. subst k. rewrite py_round_half.
  pose proof (Z.div_mod n 2 ltac:(lia)) as Hdm.
  pose proof (Z.mod_pos_bound n 2 ltac:(lia)) as Hb.
  destruct (Z.even n) eqn:Hev.
  - assert (n `mod` 2 = 0) as Hm by (rewrite Zmod_even, Hev; done). lia.
  - assert (n `mod` 2 = 1) as Hm by (rewrite Zmod_even, Hev; done).
    destruct (Z.even (n `div` 2)); lia.
Qed.

(** X13.  When the size fits, [center_crop] crops without padding, at a box
    that lies inside the image and whose margins on opposite sides differ by
    at most one pixel. *)
Theorem center_crop_is_centred img h w :
  h <= height img -> w <= width img ->
  exists top left,
    center_crop img (SizeSeq [h; w]) = Ok (crop img top left h w) /\
    0 <= top /\ top + h <= height img /\ 0 <= left /\ left + w <= width img /\
    -1 <= (height img - h - top) - top <= 1 /\
    -1 <= (width img - w - left) - left <= 1.
Proof.
  intros Hh Hw. rewrite center_crop_fits by done.
  destruct (py_round_half_centred (height img - h)) as [? ?]; [lia|].
  destruct (py_round_half_centred (width img - w)) as [? ?]; [lia|].
  eexists _, _. split; [reflexivity|]. lia.
Qed.

(** X14.  When the size fits, the five boxes [five_crop] cuts are the four
    corners and, last, the centre: the box of [center_crop], at the offsets
    [round((height - h) / 2)] and [round((width - w) / 2)], whose margins on
    opposite sides differ by at most one pixel.  Each of the five lies inside
    the image: the padding of [crop] is never called upon. *)
Theorem five_crop_boxes_inside img h w :
  h <= height img -> w <= width img ->
  let top := py_round (inject_Z (height img - h) / 2) in
  let left := py_round (inject_Z (width img - w) / 2) in
  let boxes :=
    [(0, 0); (0, width img - w); (height img - h, 0);
     (height img - h, width img - w); (top, left)] in
  five_crop img (SizeSeq [h; w]) = Ok ((fun '(t, l) => crop img t l h w) <$> boxes) /\
  center_crop img (SizeSeq [h; w]) = Ok (crop img top left h w) /\
  Forall (fun '(t, l) => 0 <= t /\ t + h <= height img /\ 0 <= l /\ l + w <= width img)
    boxes /\
  -1 <= (height img - h - top) - top <= 1 /\
  -1 <= (width img - w - left) - left <= 1.
Proof.
  intros Hh Hw top left boxes. subst boxes.
  rewrite (five_crop_fits img _ h w) by done. rewrite center_crop_fits by done.
  destruct (py_round_half_centred (height img - h)) as [? ?]; [lia|].
  destruct (py_round_half_centred (width img - w)) as [? ?]; [lia|].
  split; [reflexivity|]. split; [reflexivity|]. subst top left. split; [|lia].
  repeat apply Forall_cons_2; try apply Forall_nil_2; lia.
Qed.

Lemma five_crop_outcome img size :
  (length (square_size size) <> 2%nat /\ five_crop img size = Raise two_dimensions_error) \/
  (exists h w, square_size size = [h; w] /\
     ((h > height img \/ w > width img) /\
        five_crop img size = Raise (ValueError too_big_msg)
      \/ (h <= height img /\ w <= width img) /\ is_ok (five_crop img size) = true)).
Proof.
  destruct (square_size size) as [|h [|w [|x l]]] eqn:Hsize;
    try (left; split; [done|]; unfold five_crop; by rewrite Hsize).
  right. exists h, w. split; [done|].
  destruct (decide (h > height img \/ w > width img)) as [Hex|Hfit].
  - left. split; [done|]. by apply (five_crop_too_big img size h w).
  - right. split; [lia|]. by rewrite (five_crop_fits img size h w) by (done || lia).
Qed.

(** X15.  [five_crop] and [ten_crop] raise the [ValueError] about two
    dimensions exactly for a sequence of sizes that has neither one nor two
    elements, whatever the image. *)
Theorem multi_crop_size_length img size (vertical_flip : bool) :
  let bad := exists l, size = SizeSeq l /\ length l <> 1%nat /\ length l <> 2%nat in
  (five_crop img size = Raise two_dimensions_error <-> bad) /\
  (ten_crop img size vertical_flip = Raise two_dimensions_error <-> bad).
Proof.
  intros bad.
  assert (length (square_size size) <> 2%nat <-> bad) as Hbad.
  { subst bad. destruct size as [n|l].
    - cbn. split; [done|]. by intros (l & ? & _).
    - transitivity (length l <> 1%nat /\ length l <> 2%nat).
      + destruct l as [|x [|y [|z l]]]; cbn; lia.
      + split; [intros [? ?]; by exists l|]. by intros (l' & [= <-] & ? & ?). }
  rewrite <- Hbad. split.
  - destruct (five_crop_outcome img size) as [[Hlen ->]|(h & w & Hsize & Hcase)]; [done|].
    rewrite Hsize. split; [|done].
    destruct Hcase as [[_ ->]|[_ Hok]]; [done|]. intros Heq. by rewrite Heq in Hok.
  - unfold ten_crop. rewrite !five_crop_square_size.
    destruct (five_crop_outcome img size) as [[Hlen _]|(h & w & Hsize & Hcase)].
    + destruct (length (square_size size) =? 2)%nat eqn:Hl; [by apply Nat.eqb_eq in Hl|].
      done.
    + rewrite Hsize. cbn [length Nat.eqb negb]. split; [|done].
      destruct Hcase as [[_ ->]|[_ Hok]]; [done|].
      destruct (five_crop img size); [|done]. cbn.
      set (flipped := if vertical_flip then vflip img else hflip img).
      destruct (five_crop_outcome flipped size) as [[Hlen _]|(h' & w' & _ & Hcase')];
        [by rewrite Hsize in Hlen|].
      destruct Hcase' as [[_ ->]|[_ Hok']]; [done|].
      by destruct (five_crop flipped size).
Qed.

(** X16.  [ten_crop] fails exactly when [five_crop] fails on the image as
    given, and then with the same exception: the flipped image is never the
    one that is too small. *)
Theorem ten_crop_fails_like_five_crop img size (vertical_flip : bool) :
  match five_crop img size with
  | Raise e => ten_crop img size vertical_flip = Raise e
  | Ok _ => is_ok (ten_crop img size vertical_flip) = true
  end.
Proof.
  set (flipped := if vertical_flip then vflip img else hflip img).
  assert (ten_crop img size vertical_flip =
    (first_five ← five_crop img size;
     second_five ← five_crop flipped size;
     mret (first_five ++ second_five))) as ->.
  { unfold ten_crop. rewrite !five_crop_square_size.
    destruct (negb (length (square_size size) =? 2)%nat) eqn:Hlen; [|done].
    unfold five_crop. by rewrite Hlen. }
  destruct (flip_size img vertical_flip) as [Ew Eh]. fold flipped in Ew, Eh.
  destruct (five_crop_outcome img size) as [[_ ->]|(h & w & Hsize & Hcase)]; [done|].
  destruct Hcase as [[_ ->]|[[Hh Hw] _]]; [done|].
  rewrite (five_crop_fits img size h w) by done. cbn.
  by rewrite (five_crop_fits flipped size h w) by (done || lia).
Qed.

(** X17.  Flipping the image first swaps the two halves of what [ten_crop]
    returns. *)
Theorem ten_crop_of_flipped img size (vertical_flip : bool) first second :
  let flipped := if vertical_flip then vflip img else hflip img in
  five_crop img size = Ok first -> five_crop flipped size = Ok second ->
  ten_crop img size vertical_flip = Ok (first ++ second) /\
  ten_crop flipped size vertical_flip = Ok (second ++ first).
Proof.
  intros flipped H1 H2.
  assert (negb (length (square_size size) =? 2)%nat = false) as Hlen.
  { destruct (negb _) eqn:Hl; [|done]. unfold five_crop in H1. by rewrite Hl in H1. }
  assert ((if vertical_flip then vflip flipped else hflip flipped) = img) as Hinv.
  { subst flipped. destruct vertical_flip;
      [apply vflip_involutive | apply hflip_involutive]. }
  unfold ten_crop. rewrite Hlen, !five_crop_square_size, Hinv. fold flipped.
  by rewrite H1, H2.
Qed.
End crop_more_props.

Lemma center_crop_is_centred_witness :
  1 <= height (img23 PIL) /\ 2 <= width (img23 PIL) /\
  exists top left,
    center_crop (img23 PIL) (SizeSeq [1; 2]) = Ok (crop (img23 PIL) top left 1 2) /\
    0 <= top /\ top + 1 <= height (img23 PIL).
Proof.
  assert (1 <= height (img23 PIL)) as H1 by (cbn; lia).
  assert (2 <= width (img23 PIL)) as H2 by (cbn; lia).
  repeat (split; [assumption|]).
  destruct (center_crop_is_centred (img23 PIL) 1 2 H1 H2)
    as (top & left & Hc & Ht & Hb & _).
  exists top, left. auto.
Defined.

Lemma five_crop_boxes_inside_witness :
  1 <= height (img23 PIL) /\ 2 <= width (img23 PIL) /\
  five_crop (img23 PIL) (SizeSeq [1; 2]) =
    Ok ((fun '(t, l) => crop (img23 PIL) t l 1 2) <$>
        [(0, 0); (0, width (img23 PIL) - 2); (height (img23 PIL) - 1, 0);
         (height (img23 PIL) - 1, width (img23 PIL) - 2);
         (py_round (inject_Z (height (img23 PIL) - 1) / 2),
          py_round (inject_Z (width (img23 PIL) - 2) / 2))]).
Proof.
  assert (1 <= height (img23 PIL)) as H1 by (cbn; lia).
  assert (2 <= width (img23 PIL)) as H2 by (cbn; lia).
  repeat (split; [assumption|]).
  exact (proj1 (five_crop_boxes_inside (img23 PIL) 1 2 H1 H2)).
Defined.

Lemma ten_crop_of_flipped_witness :
  exists first second,
    five_crop (img23 Tensor) (SizeNum 2) = Ok first /\
    five_crop (hflip (img23 Tensor)) (SizeNum 2) = Ok second /\
    ten_crop (hflip (img23 Tensor)) (SizeNum 2) false = Ok (second ++ first).
Proof.
  eexists _, _.
  assert (forall first second
            (H1 : five_crop (img23 Tensor) (SizeNum 2) = Ok first)
            (H2 : five_crop (hflip (img23 Tensor)) (SizeNum 2) = Ok second),
            five_crop (img23 Tensor) (SizeNum 2) = Ok first /\
            five_crop (hflip (img23 Tensor)) (SizeNum 2) = Ok second /\
            ten_crop (hflip (img23 Tensor)) (SizeNum 2) false = Ok (second ++ first))
    as Hall.
  { intros first second H1 H2. repeat (split; [assumption|]).
    exact (proj2 (ten_crop_of_flipped (img23 Tensor) (SizeNum 2) false first second H1 H2)). }
  apply Hall; reflexivity.
Defined.

Section crop_round_trips.
Implicit Types (img : Image).

(** [center_crop] to a size no smaller than the image on either axis is the
    padding alone. *)
Lemma center_crop_grow img eh ew :
  is_image img = true -> 0 <= eh -> 0 <= ew ->
  center_crop img (SizeSeq [height img + eh; width img + ew]) =
  if (0 <? eh) || (0 <? ew) then
    Ok (pad_ltrb img (ew `div` 2) (eh `div` 2) (ew - ew `div` 2) (eh - eh `div` 2) 0)
  else Ok img.
Proof.
  intros Himg Heh Hew.
  pose proof Himg as (Hw & Hh & _)%is_image_spec.
  unfold center_crop. cbn [square_size].
  rewrite _get_image_size_eq. cbn [unpack2 mbind result_bind].
  replace ((width img + ew >? width img) || (height img + eh >? height img))
    with ((0 <? eh) || (0 <? ew))
    by (rewrite !Z.gtb_ltb, orb_comm; f_equal;
        [destruct (Z.ltb_spec 0 ew), (Z.ltb_spec (width img) (width img + ew)); lia
        |destruct (Z.ltb_spec 0 eh), (Z.ltb_spec (height img) (height img + eh)); lia]).
  destruct ((0 <? eh) || (0 <? ew)) eqn:Hany.
  - rewrite !low_side, !high_side, pad_eq.
    replace (Z.max 0 (width img + ew - width img)) with ew by lia.
    replace (Z.max 0 (height img + eh - height img)) with eh by lia.
    cbn [pad_constant parse_padding mbind result_bind mret result_ret].
    rewrite _get_image_size_eq. cbn [unpack2 mbind result_bind].
    set (padded := pad_ltrb _ _ _ _ _ _).
    assert (width padded = width img + ew) as -> by (cbn; lia).
    assert (height padded = height img + eh) as -> by (cbn; lia).
    by rewrite !Z.eqb_refl.
  - unfold crop_centered. cbn [mret result_ret]. f_equal.
    apply orb_false_iff in Hany as [?%Z.ltb_ge ?%Z.ltb_ge].
    assert (eh = 0) as -> by lia. assert (ew = 0) as -> by lia.
    rewrite !Z.add_0_r, !Z.sub_diag, py_round_zero, crop_eq. by apply crop_box_full.
Qed.

Lemma py_round_half_floor e :
  0 <= e -> e `mod` 4 <> 3 -> py_round (inject_Z e / 2) = e `div` 2.
Proof.
  intros He Hmod. rewrite py_round_half.
  destruct (Z.even e) eqn:Hev; [done|].
  assert (e `mod` 2 = 1) as Hm by (rewrite Zmod_even, Hev; done).
  assert ((e `div` 2) `mod` 2 = 0) as Hq.
  { revert Hm Hmod. Z.to_euclidean_division_equations. lia. }
  rewrite Zmod_even in Hq. by destruct (Z.even (e `div` 2)).
Qed.

(** X18.  [center_crop] back to the original size undoes a padding that is
    the same on opposite sides, whatever the fill. *)
Theorem center_crop_undoes_pad img px py fill :
  is_image img = true -> 0 <= px -> 0 <= py ->
  (padded ← pad img [px; py] fill;
   center_crop padded (SizeSeq [height img; width img])) = Ok img.
Proof.
  intros Himg Hpx Hpy.
  pose proof Himg as (Hw & Hh & _)%is_image_spec.
  rewrite pad_eq. cbn [pad_constant parse_padding mbind result_bind mret result_ret].
  set (padded := pad_ltrb img px py px py fill).
  rewrite center_crop_fits by (cbn; lia).
  replace (height padded - height img) with (2 * py) by (cbn; lia).
  replace (width padded - width img) with (2 * px) by (cbn; lia).
  rewrite !py_round_half_floor by (try lia; rewrite Z.mul_comm;
    Z.to_euclidean_division_equations; lia).
  replace ((2 * py) `div` 2) with py by (Z.to_euclidean_division_equations; lia).
  replace ((2 * px) `div` 2) with px by (Z.to_euclidean_division_equations; lia).
  rewrite crop_eq. f_equal. by apply crop_box_pad_ltrb.
Qed.

(** X19.  Growing an image with [center_crop] and cropping it back gives the
    image again when the excess on each axis is not 3 modulo 4.  (On such an
    excess padding puts the odd pixel after the image, while the crop rounds
    its offset up to the even neighbour, one pixel too far.) *)
Theorem center_crop_grow_then_shrink img eh ew :
  is_image img = true -> 0 <= eh -> 0 <= ew ->
  eh `mod` 4 <> 3 -> ew `mod` 4 <> 3 ->
  (big ← center_crop img (SizeSeq [height img + eh; width img + ew]);
   center_crop big (SizeSeq [height img; width img])) = Ok img.
Proof.
  intros Himg Heh Hew Hmh Hmw.
  pose proof Himg as (Hw & Hh & _)%is_image_spec.
  rewrite center_crop_grow by done.
  destruct ((0 <? eh) || (0 <? ew)); cbn [mbind result_bind].
  - set (padded := pad_ltrb _ _ _ _ _ _).
    rewrite center_crop_fits by (cbn; lia).
    replace (height padded - height img) with eh by (cbn; lia).
    replace (width padded - width img) with ew by (cbn; lia).
    rewrite !py_round_half_floor by done.
    rewrite crop_eq. f_equal. apply crop_box_pad_ltrb; try done;
      Z.to_euclidean_division_equations; lia.
  - rewrite center_crop_fits by lia.
    rewrite !Z.sub_diag, py_round_zero, crop_eq. f_equal. by apply crop_box_full.
Qed.
End crop_round_trips.

(** An excess of 3: the image comes back shifted by one column. *)
Example center_crop_excess_three_shifts :
  (big ← center_crop (img23 PIL) (SizeSeq [2; 6]);
   center_crop big (SizeSeq [2; 3])) = Ok (mkImage PIL 3 2 [[2; 3; 0]; [5; 6; 0]]).
Proof. vm_compute. reflexivity. Qed.

Lemma center_crop_undoes_pad_witness :
  is_image (img23 PIL) = true /\ 0 <= 2 /\ 0 <= 1 /\
  (padded ← pad (img23 PIL) [2; 1] 7;
   center_crop padded (SizeSeq [height (img23 PIL); width (img23 PIL)])) = Ok (img23 PIL).
Proof.
  assert (is_image (img23 PIL) = true) as H1 by reflexivity.
  assert (0 <= 2) as H2 by lia.
  assert (0 <= 1) as H3 by lia.
  repeat (split; [assumption|]).
  exact (center_crop_undoes_pad (img23 PIL) 2 1 7 H1 H2 H3).
Defined.

Lemma center_crop_grow_then_shrink_witness :
  is_image (img23 PIL) = true /\ 0 <= 5 /\ 0 <= 2 /\ 5 `mod` 4 <> 3 /\ 2 `mod` 4 <> 3 /\
  (big ← center_crop (img23 PIL) (SizeSeq [height (img23 PIL) + 5; width (img23 PIL) + 2]);
   center_crop big (SizeSeq [height (img23 PIL); width (img23 PIL)])) = Ok (img23 PIL).
Proof.
  assert (is_image (img23 PIL) = true) as H1 by reflexivity.
  assert (0 <= 5) as H2 by lia.
  assert (0 <= 2) as H3 by lia.
  assert (5 `mod` 4 <> 3) as H4 by (vm_compute; discriminate).
  assert (2 `mod` 4 <> 3) as H5 by (vm_compute; discriminate).
  repeat (split; [assumption|]).
  exact (center_crop_grow_then_shrink (img23 PIL) 5 2 H1 H2 H3 H4 H5).
Defined.

Section affine_more_props.
Open Scope R_scope.

Lemma radians_neg x : radians (- x) = - radians x.
Proof. unfold radians. lra. Qed.

(** X20.  The comment in the source holds: the matrix [[a, b], [c, d]] has
    determinant 1, so the linear part of the matrix returned has determinant
    [1 / scale^2]. *)
Theorem inverse_affine_determinant cx cy angle tx ty scale shx shy :
  scale <> 0 -> cos (radians shy) <> 0 ->
  exists matrix,
    _get_inverse_affine_matrix [cx; cy] angle [tx; ty] scale [shx; shy] = Ok matrix /\
    linear_det matrix = 1 / (scale * scale).
Proof.
  intros Hscale Hcos. eexists. split; [by apply inverse_affine_matrix_run|].
  cbn [linear_det].
  set (r := radians angle). set (sy := radians shy). set (tn := tan (radians shx)).
  assert (cos (r - sy) * cos r + sin (r - sy) * sin r = cos sy) as Hid.
  { rewrite <- cos_minus. replace (r - sy - r) with (- sy) by lra. apply cos_neg. }
  set (c1 := cos (r - sy)) in *. set (s1 := sin (r - sy)) in *.
  set (c0 := cos r) in *. set (s0 := sin r) in *. set (k := cos sy) in *.
  transitivity ((c1 * c0 + s1 * s0) / k / (scale * scale)); [field; done|].
  rewrite Hid. field. done.
Qed.

(** X21.  The matrix returned sends the output point [(cx + tx, cy + ty)],
    the centre moved by the translation, to the centre [(cx, cy)] of the
    input. *)
Theorem inverse_affine_fixes_centre cx cy angle tx ty scale shx shy :
  scale <> 0 -> cos (radians shy) <> 0 ->
  exists matrix,
    _get_inverse_affine_matrix [cx; cy] angle [tx; ty] scale [shx; shy] = Ok matrix /\
    apply_matrix matrix (cx + tx, cy + ty) = (cx, cy).
Proof.
  intros Hscale Hcos. eexists. split; [by apply inverse_affine_matrix_run|].
  cbn [apply_matrix fst snd]. f_equal; field; done.
Qed.

(** X22.  Without shear and translation, the matrix for [angle] and [scale]
    and the matrix for [-angle] and [1 / scale], about the same centre, undo
    each other on every point. *)
Theorem inverse_affine_rotation_inverse cx cy angle scale x y :
  scale <> 0 ->
  exists forth back,
    _get_inverse_affine_matrix [cx; cy] angle [0; 0] scale [0; 0] = Ok forth /\
    _get_inverse_affine_matrix [cx; cy] (- angle) [0; 0] (1 / scale) [0; 0] = Ok back /\
    apply_matrix forth (apply_matrix back (x, y)) = (x, y).
Proof.
  intros Hscale.
  assert (1 / scale <> 0) as Hinv.
  { unfold Rdiv. rewrite Rmult_1_l. by apply Rinv_neq_0_compat. }
  assert (cos (radians 0) <> 0) as Hcos by (rewrite radians_0, cos_0; lra).
  eexists _, _.
  split; [by apply inverse_affine_matrix_run|].
  split; [by apply inverse_affine_matrix_run|].
  cbn [apply_matrix fst snd].
  rewrite !radians_neg, !radians_0, !Rminus_0_r, tan_0, cos_0, cos_neg, sin_neg.
  pose proof (sin2_cos2 (radians angle)) as Hsc. unfold Rsqr in Hsc.
  set (c := cos (radians angle)) in *. set (s := sin (radians angle)) in *.
  f_equal.
  - transitivity ((s * s + c * c) * (x - cx) + cx); [field; done|]. rewrite Hsc. ring.
  - transitivity ((s * s + c * c) * (y - cy) + cy); [field; done|]. rewrite Hsc. ring.
Qed.

(** X23.  With a zero [scale] the builder never returns a matrix, whatever
    the other arguments. *)
Theorem inverse_affine_zero_scale center angle translate shear :
  is_ok (_get_inverse_affine_matrix center angle translate 0 shear) = false.
Proof.
  unfold _get_inverse_affine_matrix.
  destruct shear as [|shx [|shy [|? ?]]]; try reflexivity.
  destruct center as [|cx [|cy [|? ?]]]; try reflexivity.
  destruct translate as [|tx [|ty [|? ?]]]; try reflexivity.
  cbn [fmap list_fmap unpack2 mbind result_bind].
  destruct (Req_EM_T (cos (radians shy)) 0) as [Hz|Hnz].
  - rewrite Hz, !py_div_zero. reflexivity.
  - rewrite !py_div_ok by done. cbn [mbind result_bind mapM].
    rewrite !py_div_zero. reflexivity.
Qed.
End affine_more_props.

Lemma inverse_affine_determinant_witness :
  (2 <> 0)%R /\ (cos (radians 0) <> 0)%R /\
  exists matrix,
    _get_inverse_affine_matrix [1; 1]%R 90%R [0; 0]%R 2%R [0; 0]%R = Ok matrix /\
    linear_det matrix = (1 / (2 * 2))%R.
Proof.
  assert (2 <> 0)%R as H1 by lra.
  assert (cos (radians 0) <> 0)%R as H2 by (rewrite radians_0, cos_0; lra).
  repeat (split; [assumption|]).
  exact (inverse_affine_determinant 1 1 90 0 0 2 0 0 H1 H2).
Defined.

Lemma inverse_affine_fixes_centre_witness :
  (2 <> 0)%R /\ (cos (radians 0) <> 0)%R /\
  exists matrix,
    _get_inverse_affine_matrix [1; 1]%R 90%R [3; 4]%R 2%R [0; 0]%R = Ok matrix /\
    apply_matrix matrix (1 + 3, 1 + 4)%R = (1, 1)%R.
Proof.
  assert (2 <> 0)%R as H1 by lra.
  assert (cos (radians 0) <> 0)%R as H2 by (rewrite radians_0, cos_0; lra).
  repeat (split; [assumption|]).
  exact (inverse_affine_fixes_centre 1 1 90 3 4 2 0 0 H1 H2).
Defined.

Lemma inverse_affine_rotation_inverse_witness :
  (2 <> 0)%R /\
  exists forth back,
    _get_inverse_affine_matrix [1; 1]%R 90%R [0; 0]%R 2%R [0; 0]%R = Ok forth /\
    _get_inverse_affine_matrix [1; 1]%R (- 90)%R [0; 0]%R (1 / 2)%R [0; 0]%R = Ok back /\
    apply_matrix forth (apply_matrix back (5, 7)%R) = (5, 7)%R.
Proof.
  assert (2 <> 0)%R as H1 by lra.
  split; [assumption|].
  exact (inverse_affine_rotation_inverse 1 1 90 2 5 7 H1).
Defined.

Module ConvertProps.
Import Convert.

Lemma ndim_2_or_3 a :
  bool_decide (ndim a ∈ [2; 3]%nat) = true ->
  (exists x y, a_shape a = [x; y]) \/ (exists x y z, a_shape a = [x; y; z]).
Proof.
  intros Hn%bool_decide_eq_true. unfold ndim in Hn.
  destruct a as [[|x [|y [|z [|u l]]]] dt]; cbn in *; eauto;
    repeat (apply elem_of_cons in Hn as [Hn|Hn]; [done|]); by apply elem_of_nil in Hn.
Qed.

Lemma ndim_other a :
  ndim a <> 2%nat -> ndim a <> 3%nat -> bool_decide (ndim a ∈ [2; 3]%nat) = false.
Proof.
  intros H2 H3. apply bool_decide_eq_false. intros Hn.
  repeat (apply elem_of_cons in Hn as [Hn|Hn]; [done|]). by apply elem_of_nil in Hn.
Qed.

Lemma scaled_spec img :
  a_shape (scaled img) = a_shape img /\ a_dtype (scaled img) <> np_uint8.
Proof. unfold scaled. by case_decide. Qed.

(** X24.  [to_tensor] accepts a PIL image or an array of two or three
    dimensions and nothing else: a tensor or another object is a
    [TypeError], an array of another rank a [ValueError].  What it returns
    has three dimensions and is never of dtype uint8. *)
Theorem to_tensor_outcome pic :
  match to_tensor pic with
  | Ok t =>
      ndim t = 3%nat /\ a_dtype t <> np_uint8 /\
      ((exists p, pic = PicPIL p) \/
       (exists a, pic = PicArray a /\ (ndim a = 2%nat \/ ndim a = 3%nat)))
  | Raise (TypeError _) => pic = PicOther \/ exists a, pic = PicTensor a
  | Raise (ValueError _) =>
      exists a, pic = PicArray a /\ ndim a <> 2%nat /\ ndim a <> 3%nat
  | Raise _ => False
  end.
Proof.
  destruct pic as [p|a|a|]; cbn [to_tensor]; eauto.
  - match goal with |- context [scaled ?i] => destruct (scaled_spec i) as [Hs Hd] end.
    unfold ndim. rewrite Hs. eauto.
  - destruct (bool_decide (ndim a ∈ [2; 3]%nat)) eqn:Hn; cbn [negb].
    + match goal with |- context [scaled ?i] => destruct (scaled_spec i) as [Hs Hd] end.
      unfold ndim at 1. rewrite Hs. split; [done|]. split; [done|].
      right. exists a. split; [done|].
      destruct (ndim_2_or_3 a Hn) as [(x & y & Ha)|(x & y & z & Ha)];
        unfold ndim; rewrite Ha; auto.
    + apply bool_decide_eq_false in Hn. exists a. split; [done|].
      split; intros Heq; apply Hn; rewrite Heq; set_solver.
Qed.

Ltac channels c :=
  let Hc := fresh in
  assert (c = 1 \/ c = 2 \/ c = 3 \/ c = 4) as Hc by lia;
  destruct Hc as [->|[->|[->| ->]]].

(** X25.  With no mode asked for, a float tensor of one to four channels is
    turned into a uint8 image of mode L, LA, RGB or RGBA.  An array, or an
    integer tensor, of two to four channels that is not uint8 gets no mode
    and is a [TypeError]. *)
Theorem to_pil_image_default_modes h w c dt :
  (1 <= c <= 4 -> is_floating_point (mkArray [c; h; w] dt) = true ->
     to_pil_image (PicTensor (mkArray [c; h; w] dt)) None =
       Ok (mkArray (hwc h w c) np_uint8, default_mode c)) /\
  (2 <= c <= 4 -> dt <> np_uint8 ->
     to_pil_image (PicArray (mkArray [h; w; c] dt)) None =
       Raise (TypeError "Input type {} is not supported")) /\
  (2 <= c <= 4 -> dt <> np_uint8 -> is_floating_point (mkArray [c; h; w] dt) = false ->
     to_pil_image (PicTensor (mkArray [c; h; w] dt)) None =
       Raise (TypeError "Input type {} is not supported")).
Proof.
  split; [|split].
  - intros Hc Hf. channels c; destruct dt; try done.
  - intros Hc Hdt. assert (c = 2 \/ c = 3 \/ c = 4) as Hc' by lia.
    destruct Hc' as [->|[->| ->]]; destruct dt; done.
  - intros Hc Hdt Hf. assert (c = 2 \/ c = 3 \/ c = 4) as Hc' by lia.
    destruct Hc' as [->|[->| ->]]; destruct dt; done.
Qed.

(** X26.  A uint8 array of height, width and one to four channels, sent
    through [to_tensor] and back through [to_pil_image], arrives as a uint8
    image of the same height, width and channels, in mode L, LA, RGB or RGBA;
    a one-channel image loses its channel axis. *)
Theorem array_round_trip h w c :
  1 <= c <= 4 ->
  (t ← to_tensor (PicArray (mkArray [h; w; c] np_uint8));
   to_pil_image (PicTensor t) None) =
  Ok (mkArray (hwc h w c) np_uint8, default_mode c).
Proof. intros Hc. channels c; reflexivity. Qed.

(** X27.  A PIL image of one to four bands, sent through [to_tensor] and
    back through [to_pil_image] with no mode asked for, keeps its size and
    bands, but its mode only if that is L, LA, RGB, RGBA, I or I;16: the
    integer modes I and I;16 are kept, every other mode comes back as the
    uint8 mode of its band count, mode F as L. *)
Theorem pil_round_trip mode w h bands :
  1 <= bands <= 4 ->
  let back := t ← to_tensor (PicPIL (mkPIL mode (w, h) bands));
              to_pil_image (PicTensor t) None in
  (mode <> "I" -> mode <> "I;16" ->
     back = Ok (mkArray (hwc h w bands) np_uint8, default_mode bands)) /\
  (mode = "I" -> bands = 1 -> back = Ok (mkArray [h; w] np_int32, "I")) /\
  (mode = "I;16" -> bands = 1 -> back = Ok (mkArray [h; w] np_int16, "I;16")).
Proof.
  intros Hb back. subst back. split; [|split].
  - intros HI HI16. cbn [to_tensor mbind result_bind]. unfold mode_to_nptype.
    rewrite !decide_False by done. cbn [p_size p_bands snd fst].
    case_decide; channels bands; reflexivity.
  - by intros -> ->.
  - by intros -> ->.
Qed.

(** X28.  [to_pil_image] raises a [TypeError] for what is neither a tensor
    nor an array, and a [ValueError] for an array or a tensor that has
    neither two nor three dimensions or that has more than four channels. *)
Theorem to_pil_image_rejects a mode :
  (forall p, exists msg, to_pil_image (PicPIL p) mode = Raise (TypeError msg)) /\
  (exists msg, to_pil_image PicOther mode = Raise (TypeError msg)) /\
  (ndim a <> 2%nat -> ndim a <> 3%nat ->
     exists msg1 msg2,
       to_pil_image (PicTensor a) mode = Raise (ValueError msg1) /\
       to_pil_image (PicArray a) mode = Raise (ValueError msg2)) /\
  (forall h w c dt, 4 < c ->
     exists msg1 msg2,
       to_pil_image (PicTensor (mkArray [c; h; w] dt)) mode = Raise (ValueError msg1) /\
       to_pil_image (PicArray (mkArray [h; w; c] dt)) mode = Raise (ValueError msg2)).
Proof.
  split; [by eexists|]. split; [by eexists|]. split.
  - intros H2 H3. unfold to_pil_image. rewrite (ndim_other a) by done.
    cbn. eauto.
  - intros h w c dt Hc. unfold to_pil_image. cbn.
    unfold dim_back. cbn. rewrite Z.gtb_ltb.
    destruct (Z.ltb_spec 4 c); [|lia]. cbn. eauto.
Qed.

Lemma pick_mode_spec permitted msg fallback mode dt m :
  pick_mode permitted msg fallback mode dt = Ok (Some m) ->
  m ∈ permitted \/ (mode = None /\ dt = np_uint8 /\ m = fallback).
Proof.
  unfold pick_mode. destruct mode as [m'|].
  - case_bool_decide; [|done]. intros [= ->]. by left.
  - case_decide; [|done]. intros [= <-]. by right.
Qed.

Lemma pick_mode_given permitted msg fallback m' dt m :
  pick_mode permitted msg fallback (Some m') dt = Ok m -> m = Some m'.
Proof. unfold pick_mode. case_bool_decide; [|done]. by intros [= <-]. Qed.

(** The last step of [to_pil_image], on an array of three dimensions. *)
Lemma mode_fits_3d h w c dt mode npimg m :
  ('(npimg, mode) ←
     (if dim (mkArray [h; w; c] dt) 2 =? 1 then
        let expected := expected_mode dt in
        let npimg := mkArray (take 2 [h; w; c]) dt in
        match mode with
        | Some _ =>
            if negb (bool_decide (mode = expected)) then
              Raise (ValueError "Incorrect mode ({}) supplied for input type {}. Should be {}")
            else Ok (npimg, expected)
        | None => Ok (npimg, expected)
        end
      else if dim (mkArray [h; w; c] dt) 2 =? 2 then
        mode ← pick_mode ["LA"] "Only modes {} are supported for 2D inputs" "LA" mode dt;
        Ok (mkArray [h; w; c] dt, mode)
      else if dim (mkArray [h; w; c] dt) 2 =? 4 then
        mode ← pick_mode ["RGBA"; "CMYK"; "RGBX"]
                 "Only modes {} are supported for 4D inputs" "RGBA" mode dt;
        Ok (mkArray [h; w; c] dt, mode)
      else
        mode ← pick_mode ["RGB"; "YCbCr"; "HSV"]
                 "Only modes {} are supported for 3D inputs" "RGB" mode dt;
        Ok (mkArray [h; w; c] dt, mode));
   match mode with
   | None => Raise (TypeError "Input type {} is not supported")
   | Some mode => Ok (npimg, mode)
   end) = Ok (npimg, m) ->
  a_shape npimg = hwc h w c /\ a_dtype npimg = dt /\ m ∈ permitted_modes c /\
  (forall m', mode = Some m' -> m = m').
Proof.
  change (dim (mkArray [h; w; c] dt) 2) with c. unfold hwc, permitted_modes.
  destruct (Z.eqb_spec c 1) as [->|H1].
  { cbn [take]. destruct mode as [m'|].
    - case_bool_decide as Hm; cbn [negb]; [|done]. rewrite <- Hm. cbn.
      intros [= <- <-]. repeat split; try done.
      + destruct dt; cbn in Hm; simplify_eq; set_solver.
      + by intros ? [= <-].
    - cbn. destruct (expected_mode dt) as [m'|] eqn:He; [|done].
      intros [= <- <-]. repeat split; try done.
      destruct dt; cbn in He; simplify_eq; set_solver. }
  destruct (Z.eqb_spec c 2) as [->|H2]; [|destruct (Z.eqb_spec c 4) as [->|H4]].
  all: match goal with
       | |- context [pick_mode ?p ?msg ?f ?md ?d] =>
           destruct (pick_mode p msg f md d) as [[m0|]|] eqn:Hp; try done;
           cbn; intros Hrun; simplify_eq;
           pose proof (pick_mode_spec p msg f md d _ Hp) as Hin
       end.
  all: repeat split; try done;
       [ destruct Hin as [?|(_ & _ & ->)]; [done | set_solver]
       | intros m' ->; apply pick_mode_given in Hp; congruence ].
Qed.

(** X29.  Whenever [to_pil_image] succeeds, the array it hands to
    [Image.fromarray] is height by width, or height by width by channels with
    at most four channels, and the mode is one the source permits for that
    number of channels; a mode that was asked for is the mode used. *)
Theorem to_pil_image_mode_fits pic mode npimg m :
  to_pil_image pic mode = Ok (npimg, m) ->
  exists h w c,
    c <= 4 /\ a_shape npimg = hwc h w c /\ m ∈ permitted_modes c /\
    (forall m', mode = Some m' -> m = m').
Proof.
  unfold to_pil_image. destruct pic as [p|a|a|]; try done.
  - (* ndarray *)
    destruct (bool_decide (ndim a ∈ [2; 3]%nat)) eqn:Hn; cbn [negb mbind result_bind]; [|done].
    destruct a as [sh dt].
    destruct (ndim_2_or_3 _ Hn) as [(h & w & Ha)|(h & w & c & Ha)]; cbn in Ha; subst sh.
    + cbn. intros Hrun. exists h, w, 1. split; [lia|].
      apply (mode_fits_3d h w 1 dt mode) in Hrun. tauto.
    + unfold ndim, dim_back. cbn [a_shape length Nat.eqb reverse lookup].
      cbn. rewrite Z.gtb_ltb. destruct (Z.ltb_spec 4 c); [done|].
      cbn [mbind result_bind]. intros Hrun. exists h, w, c. split; [lia|].
      apply (mode_fits_3d h w c dt mode) in Hrun. tauto.
  - (* tensor *)
    destruct (bool_decide (ndim a ∈ [2; 3]%nat)) eqn:Hn; cbn [negb mbind result_bind]; [|done].
    destruct a as [sh dt].
    destruct (ndim_2_or_3 _ Hn) as [(h & w & Ha)|(c & h & w & Ha)]; cbn in Ha; subst sh.
    + cbn [ndim a_shape length Nat.eqb]. unfold dim_back.
      cbn [a_shape reverse lookup]. cbn -[transpose dim take pick_mode expected_mode].
      destruct (_ && _); intros Hrun; exists h, w, 1; (split; [lia|]);
        eapply (mode_fits_3d h w 1 _ mode) in Hrun; tauto.
    + cbn [ndim a_shape length Nat.eqb]. unfold dim_back.
      cbn -[transpose dim take pick_mode expected_mode Z.gtb].
      rewrite Z.gtb_ltb. destruct (Z.ltb_spec 4 c); [done|].
      cbn -[transpose dim take pick_mode expected_mode].
      destruct (_ && _); intros Hrun; exists h, w, c; (split; [lia|]);
        eapply (mode_fits_3d h w c _ mode) in Hrun; tauto.
Qed.
Lemma to_pil_image_default_modes_witness :
  (1 <= 3 <= 4 /\ is_floating_point (mkArray [3; 5; 7] np_float32) = true /\
   to_pil_image (PicTensor (mkArray [3; 5; 7] np_float32)) None =
     Ok (mkArray (hwc 5 7 3) np_uint8, default_mode 3)) /\
  (2 <= 3 <= 4 /\ np_int32 <> np_uint8 /\
   to_pil_image (PicArray (mkArray [5; 7; 3] np_int32)) None =
     Raise (TypeError "Input type {} is not supported")) /\
  (is_floating_point (mkArray [3; 5; 7] np_int32) = false /\
   to_pil_image (PicTensor (mkArray [3; 5; 7] np_int32)) None =
     Raise (TypeError "Input type {} is not supported")).
Proof.
  assert (1 <= 3 <= 4) as H1 by lia.
  assert (2 <= 3 <= 4) as H2 by lia.
  assert (is_floating_point (mkArray [3; 5; 7] np_float32) = true) as H3 by reflexivity.
  assert (np_int32 <> np_uint8) as H4 by discriminate.
  assert (is_floating_point (mkArray [3; 5; 7] np_int32) = false) as H5 by reflexivity.
  split; [|split].
  - split; [assumption|]. split; [assumption|].
    exact (proj1 (to_pil_image_default_modes 5 7 3 np_float32) H1 H3).
  - split; [assumption|]. split; [assumption|].
    exact (proj1 (proj2 (to_pil_image_default_modes 5 7 3 np_int32)) H2 H4).
  - split; [assumption|].
    exact (proj2 (proj2 (to_pil_image_default_modes 5 7 3 np_int32)) H2 H4 H5).
Defined.

Lemma array_round_trip_witness :
  1 <= 3 <= 4 /\
  (t ← to_tensor (PicArray (mkArray [5; 7; 3] np_uint8));
   to_pil_image (PicTensor t) None) =
  Ok (mkArray [5; 7; 3] np_uint8, "RGB").
Proof.
  assert (1 <= 3 <= 4) as H1 by lia.
  split; [assumption|]. exact (array_round_trip 5 7 3 H1).
Defined.

Lemma pil_round_trip_witness :
  (1 <= 1 <= 4 /\ "F" <> "I" /\ "F" <> "I;16" /\
   (t ← to_tensor (PicPIL (mkPIL "F" (7, 5) 1)); to_pil_image (PicTensor t) None) =
   Ok (mkArray [5; 7] np_uint8, "L")) /\
  (t ← to_tensor (PicPIL (mkPIL "I" (7, 5) 1)); to_pil_image (PicTensor t) None) =
   Ok (mkArray [5; 7] np_int32, "I").
Proof.
  assert (1 <= 1 <= 4) as H1 by lia.
  assert ("F" <> "I") as H2 by discriminate.
  assert ("F" <> "I;16") as H3 by discriminate.
  split.
  - repeat (split; [assumption|]).
    exact (proj1 (pil_round_trip "F" 7 5 1 H1) H2 H3).
  - exact (proj1 (proj2 (pil_round_trip "I" 7 5 1 H1)) eq_refl eq_refl).
Defined.

Lemma to_pil_image_rejects_witness :
  (ndim (mkArray [1; 3; 5; 7] np_uint8) <> 2%nat /\
   ndim (mkArray [1; 3; 5; 7] np_uint8) <> 3%nat /\
   exists msg1 msg2,
     to_pil_image (PicTensor (mkArray [1; 3; 5; 7] np_uint8)) None =
       Raise (ValueError msg1) /\
     to_pil_image (PicArray (mkArray [1; 3; 5; 7] np_uint8)) None =
       Raise (ValueError msg2)) /\
  (4 < 5 /\
   exists msg1 msg2,
     to_pil_image (PicTensor (mkArray [5; 2; 2] np_uint8)) (Some "RGB") =
       Raise (ValueError msg1) /\
     to_pil_image (PicArray (mkArray [2; 2; 5] np_uint8)) (Some "RGB") =
       Raise (ValueError msg2)).
Proof.
  assert (ndim (mkArray [1; 3; 5; 7] np_uint8) <> 2%nat) as H1 by (cbn; lia).
  assert (ndim (mkArray [1; 3; 5; 7] np_uint8) <> 3%nat) as H2 by (cbn; lia).
  assert (4 < 5) as H3 by lia.
  split.
  - repeat (split; [assumption|]).
    exact (proj1 (proj2 (proj2
             (to_pil_image_rejects (mkArray [1; 3; 5; 7] np_uint8) None))) H1 H2).
  - split; [assumption|].
    exact (proj2 (proj2 (proj2
             (to_pil_image_rejects (mkArray [] np_uint8) (Some "RGB"))))
             2 2 5 np_uint8 H3).
Defined.

Lemma to_pil_image_mode_fits_witness :
  to_pil_image (PicTensor (mkArray [4; 5; 7] np_float32)) (Some "CMYK") =
    Ok (mkArray [5; 7; 4] np_uint8, "CMYK") /\
  exists h w c,
    c <= 4 /\ a_shape (mkArray [5; 7; 4] np_uint8) = hwc h w c /\
    "CMYK" ∈ permitted_modes c /\
    (forall m', Some "CMYK" = Some m' -> "CMYK" = m').
Proof.
  assert (to_pil_image (PicTensor (mkArray [4; 5; 7] np_float32)) (Some "CMYK") =
          Ok (mkArray [5; 7; 4] np_uint8, "CMYK")) as H1 by reflexivity.
  split; [assumption|].
  exact (to_pil_image_mode_fits _ _ _ _ H1).
Defined.
End ConvertProps.

Section dict_props.
Context {K V : Type} `{EqDecision K}.
Implicit Types (d : PyDict.dict K V) (k : K) (v : V).

Lemma setitem_fresh d k v :
  k ∉ d.*1 -> PyDict.setitem d k v = d ++ [(k, v)].
Proof.
  induction d as [|[k' v'] d IH]; cbn; [done|].
  intros Hk. apply not_elem_of_cons in Hk as [Hne Hk].
  rewrite decide_False by done. by rewrite IH.
Qed.

Lemma of_pairs_app_fresh d (pairs : list (K * V)) :
  NoDup (d.*1 ++ pairs.*1) ->
  foldl (fun d kv => PyDict.setitem d kv.1 kv.2) d pairs = d ++ pairs.
Proof.
  revert d. induction pairs as [|[k v] pairs IH]; intros d Hnd; cbn.
  - by rewrite app_nil_r.
  - cbn in Hnd. rewrite setitem_fresh.
    + rewrite IH; [by rewrite <- app_assoc|].
      rewrite fmap_app. cbn. by rewrite <- app_assoc.
    + apply NoDup_app in Hnd as (_ & Hdisj & _). intros Hin.
      apply (Hdisj k Hin). left.
Qed.

(** A display whose keys are distinct holds its pairs as written. *)
Lemma of_pairs_distinct (pairs : list (K * V)) :
  NoDup pairs.*1 -> PyDict.of_pairs pairs = pairs.
Proof. intros Hnd. unfold PyDict.of_pairs. by rewrite of_pairs_app_fresh. Qed.

Lemma getitem_elem_of d k v :
  NoDup d.*1 -> (k, v) ∈ d -> PyDict.getitem d k = Some v.
Proof.
  induction d as [|[k' v'] d IH]; cbn; intros Hnd Hin; [by apply elem_of_nil in Hin|].
  apply NoDup_cons in Hnd as [Hk' Hnd].
  apply elem_of_cons in Hin as [[= <- <-]|Hin].
  - by rewrite decide_True.
  - rewrite decide_False; [by apply IH|].
    intros ->. apply Hk'. apply list_elem_of_fmap. by exists (k', v).
Qed.

Lemma getitem_missing d k : k ∉ d.*1 -> PyDict.getitem d k = None.
Proof.
  induction d as [|[k' v'] d IH]; cbn; [done|].
  intros Hk. apply not_elem_of_cons in Hk as [Hne Hk].
  rewrite decide_False by done. by apply IH.
Qed.
End dict_props.

Section name_table_props.
Context `{PIL_filters}.

Lemma names_distinct : NoDup (value <$> all_modes).
Proof. apply (bool_decide_unpack _). vm_compute. exact I. Qed.

Lemma flow_table :
  _str_to_flow_interpolation true = (fun m => (value m, m)) <$> all_modes.
Proof. by apply of_pairs_distinct, names_distinct. Qed.

Lemma pil_table :
  NoDup (pil_filter <$> all_modes) ->
  _str_to_pil_interpolation = (fun m => (value m, pil_filter m)) <$> all_modes.
Proof.
  intros Hnd. unfold _str_to_pil_interpolation, inverted, _pil_interpolation_to_str.
  rewrite (of_pairs_distinct (K := Z)) by exact Hnd.
  by apply of_pairs_distinct, names_distinct.
Qed.

(** X8.  When the six filter constants of PIL are distinct, the tables of
    names are one-to-one: [str_to_pil_interp] of the name of a mode is the
    PIL constant of that mode, [str_to_interp_mode] of it is the mode itself
    when the enumeration is there and that constant otherwise, and any other
    string is a [KeyError] in both. *)
Theorem interpolation_names_round_trip :
  NoDup (pil_filter <$> all_modes) ->
  (forall m, str_to_pil_interp (value m) = Some (pil_filter m)) /\
  (forall m (flag : bool),
     str_to_interp_mode flag (value m) =
     Some (if flag then AsMode m else AsInt (pil_filter m))) /\
  (forall s, s ∉ value <$> all_modes ->
     str_to_pil_interp s = None /\ forall flag, str_to_interp_mode flag s = None).
Proof.
  intros Hnd.
  assert (forall m, str_to_pil_interp (value m) = Some (pil_filter m)) as Hpil.
  { intros m. unfold str_to_pil_interp. rewrite pil_table by done.
    apply getitem_elem_of.
    - rewrite <- list_fmap_compose. apply names_distinct.
    - apply list_elem_of_fmap. exists m. split; [done|]. destruct m; set_solver. }
  assert (forall m, PyDict.getitem (_str_to_flow_interpolation true) (value m) = Some m)
    as Hflow.
  { intros m. rewrite flow_table. apply getitem_elem_of.
    - rewrite <- list_fmap_compose. apply names_distinct.
    - apply list_elem_of_fmap. exists m. split; [done|]. destruct m; set_solver. }
  split; [done|]. split.
  - intros m [|]; unfold str_to_interp_mode.
    + by rewrite Hflow.
    + specialize (Hpil m). unfold str_to_pil_interp in Hpil. by rewrite Hpil.
  - intros s Hs.
    assert (PyDict.getitem _str_to_pil_interpolation s = None) as Hp.
    { rewrite pil_table by done. apply getitem_missing.
      by rewrite <- list_fmap_compose. }
    assert (PyDict.getitem (_str_to_flow_interpolation true) s = None) as Hf.
    { rewrite flow_table. apply getitem_missing. by rewrite <- list_fmap_compose. }
    split; [done|]. intros [|]; unfold str_to_interp_mode; by rewrite ?Hp, ?Hf.
Qed.
End name_table_props.

Lemma interpolation_names_round_trip_witness :
  NoDup (@pil_filter pillow <$> all_modes) /\
  @str_to_pil_interp pillow (value LANCZOS) = Some (@pil_filter pillow LANCZOS).
Proof.
  assert (NoDup (@pil_filter pillow <$> all_modes)) as H1
    by (apply (bool_decide_unpack _); vm_compute; exact I).
  split; [assumption|].
  exact (proj1 (@interpolation_names_round_trip pillow H1) LANCZOS).
Defined.
